(** * lobsters-graph: the invitation-tree parser, the record store, the
    profile link classifier and the enrichment merger.

    A shallow embedding of [scraper/parse_tree.py], [scraper/db.py],
    [scraper/scrape.py] and [scraper/enrich.py].

    Conventions.
    - A Python [str] is a [string] whose characters are read as the code
      points 0..255 (Latin-1).  Character classes follow Python's [re] on
      [str] patterns restricted to that range.
    - A parsed document (what [BeautifulSoup(html, "html.parser")] hands to
      the code) is a tree of [node]s; the HTML tokenizer itself is not part
      of the repository.
    - A table with a [UNIQUE NOT NULL] username is a [gmap] from the
      username to its row. *)

From Stdlib Require Import ZArith NArith Ascii String List Bool Lia.
From Stdlib Require Import DecimalString DecimalN DecimalPos.
From stdpp Require Import base option list gmap strings fin_maps.

Local Open Scope string_scope.
Local Open Scope list_scope.
Local Open Scope Z_scope.

#[local] Arguments String.append : simpl nomatch.

(** ** Python string operations *)

Module Py.

Definition code (c : ascii) : N := N_of_ascii c.

(** [\d] *)
Definition is_digit (c : ascii) : bool :=
  (48 <=? code c)%N && (code c <=? 57)%N.

(** [\s], and the characters [str.strip()] removes *)
Definition is_space (c : ascii) : bool :=
  let n := code c in
  ((9 <=? n)%N && (n <=? 13)%N) || ((28 <=? n)%N && (n <=? 32)%N)
  || (n =? 133)%N || (n =? 160)%N.

(** [[a-zA-Z0-9_-]] *)
Definition is_handle_char (dash : bool) (c : ascii) : bool :=
  let n := code c in
  ((97 <=? n)%N && (n <=? 122)%N) || ((65 <=? n)%N && (n <=? 90)%N)
  || is_digit c || (n =? 95)%N || (dash && (n =? 45)%N).

(** [bool(s)] for a string *)
Definition truthy (s : string) : bool :=
  match s with EmptyString => false | String _ _ => true end.

(** [bool(x)] for a value that is a string or [None] *)
Definition truthy_opt (o : option string) : bool :=
  match o with Some s => truthy s | None => false end.

(** [s.startswith(p)] *)
Definition startswith (p s : string) : bool := String.prefix p s.

(** The rest of [s] after the prefix [p], when [s] starts with [p]. *)
Fixpoint drop_prefix (p s : string) : option string :=
  match p, s with
  | EmptyString, _ => Some s
  | String a p', String b s' =>
      if Ascii.eqb a b then drop_prefix p' s' else None
  | String _ _, EmptyString => None
  end.

(** [x in s] *)
Fixpoint contains (x s : string) : bool :=
  match drop_prefix x s with
  | Some _ => true
  | None => match s with
            | EmptyString => false
            | String _ s' => contains x s'
            end
  end.

(** [s.replace(old, new)] for a non-empty [old]: left to right, without
    overlap.  [fuel] bounds the number of positions visited. *)
Fixpoint replace_fuel (fuel : nat) (old new s : string) : string :=
  match fuel with
  | O => s
  | S fuel' =>
      match drop_prefix old s with
      | Some rest => new +:+ replace_fuel fuel' old new rest
      | None => match s with
                | EmptyString => EmptyString
                | String c s' => String c (replace_fuel fuel' old new s')
                end
      end
  end.

Definition replace (old new s : string) : string :=
  replace_fuel (S (String.length s)) old new s.

(** [s.lower()] on code points below 256 *)
Definition lower_char (c : ascii) : ascii :=
  let n := code c in
  if ((65 <=? n)%N && (n <=? 90)%N)
     || ((192 <=? n)%N && (n <=? 222)%N && negb (n =? 215)%N)
  then ascii_of_N (n + 32) else c.

Fixpoint lower (s : string) : string :=
  match s with
  | EmptyString => EmptyString
  | String c s' => String (lower_char c) (lower s')
  end.

(** [s[:n]] *)
Definition take (n : nat) (s : string) : string := String.substring 0 n s.

(** [sep.join(parts)] *)
Definition join (sep : string) (parts : list string) : string :=
  String.concat sep parts.

(** The longest prefix of characters satisfying [p], and the rest. *)
Fixpoint span (p : ascii -> bool) (s : string) : string * string :=
  match s with
  | EmptyString => (EmptyString, EmptyString)
  | String c s' =>
      if p c then let '(a, b) := span p s' in (String c a, b)
      else (EmptyString, s)
  end.

(** [int(s)] for a string of decimal digits; Python integers are unbounded. *)
Definition int (s : string) : Z :=
  match NilEmpty.uint_of_string s with
  | Some d => Z.of_N (N.of_uint d)
  | None => 0
  end.

(** [str(n)] for a natural number *)
Definition str_of_N (n : N) : string := NilEmpty.string_of_uint (N.to_uint n).

End Py.

(** ** The parsed document *)

Module Dom.

(** A BeautifulSoup element.  A tag carries its name, its single-valued
    attributes as a dictionary, and the multi-valued [class] attribute as
    the list of its classes (empty when the attribute is absent).  [Text]
    is a [NavigableString]; [Comment] stands for a comment and for the other
    strings [get_text] leaves out. *)
#[warnings="-register-all"]
Inductive node : Type :=
| Tag (name : string) (attrs : gmap string string) (classes : list string)
      (children : list node)
| Text (s : string)
| Comment (s : string).

Definition children (n : node) : list node :=
  match n with Tag _ _ _ cs => cs | _ => [] end.

(** All elements below a node, in document order. *)
Fixpoint descendants (n : node) : list node :=
  match n with
  | Tag _ _ _ cs => flat_map (fun c => c :: descendants c) cs
  | _ => []
  end.

Definition descendants_of (ns : list node) : list node :=
  flat_map (fun c => c :: descendants c) ns.

(** [n.get_text()]: the text strings below [n], concatenated; comments do
    not count. *)
Fixpoint get_text (n : node) : string :=
  match n with
  | Tag _ _ _ cs => fold_right (fun c acc => get_text c +:+ acc) "" cs
  | Text s => s
  | Comment _ => ""
  end.

Fixpoint height (n : node) : nat :=
  match n with
  | Tag _ _ _ cs => S (fold_right (fun c acc => Nat.max (height c) acc) O cs)
  | _ => O
  end.

Definition is_tag (nm : string) (n : node) : bool :=
  match n with Tag nm' _ _ _ => String.eqb nm' nm | _ => false end.

(** A [class_=c] filter: one of the classes is [c], or the whole attribute
    value is. *)
Definition has_class (c : string) (classes : list string) : bool :=
  existsb (String.eqb c) classes || String.eqb (Py.join " " classes) c.

(** [find(nm, class_=c)] filter *)
Definition is_tag_with_class (nm c : string) (n : node) : bool :=
  match n with
  | Tag nm' _ cls _ => String.eqb nm' nm && has_class c cls
  | _ => false
  end.

(** [find("a", href=re.compile(r"^/~"))] filter: an absent attribute does
    not match. *)
Definition is_user_link (n : node) : bool :=
  match n with
  | Tag nm attrs _ _ =>
      String.eqb nm "a" &&
      match attrs !! "href" with
      | Some h => Py.startswith "/~" h
      | None => false
      end
  | _ => false
  end.

(** [n.find(..., recursive=False)] and [n.find(...)] *)
Definition find_child (p : node -> bool) (n : node) : option node :=
  List.find p (children n).

Definition find_desc (p : node -> bool) (n : node) : option node :=
  List.find p (descendants n).

(** [n.find_all(..., recursive=False)] *)
Definition find_all_children (p : node -> bool) (n : node) : list node :=
  List.filter p (children n).

(** [n.find_all(...)] *)
Definition find_all_desc (p : node -> bool) (ns : list node) : list node :=
  List.filter p (descendants_of ns).

End Dom.

(** ** The tree reconstructor ([scraper/parse_tree.py]) *)

Module ParseTree.
Import Dom.

(** One entry of the list [parse_users_tree] returns. *)
Record user_fact : Type := mkFact {
  username : string;
  karma : Z;
  invited_by_username : option string;
  is_inactive : bool
}.

(** [re.search(rf"{re.escape(username)}\s*\((\d+)\)", text)] tried at the
    head of [text]: the digits of group 1. *)
Definition karma_match_here (username text : string) : option string :=
  match Py.drop_prefix username text with
  | None => None
  | Some r =>
      match snd (Py.span Py.is_space r) with
      | String "(" r2 =>
          match Py.span Py.is_digit r2 with
          | (String d ds, String ")" _) => Some (String d ds)
          | _ => None
          end
      | _ => None
      end
  end.

(** The leftmost match. *)
Fixpoint karma_search (username text : string) : option string :=
  match karma_match_here username text with
  | Some ds => Some ds
  | None =>
      match text with
      | EmptyString => None
      | String _ text' => karma_search username text'
      end
  end.

(** The user link of an entry: a direct child first, any descendant
    otherwise. *)
Definition find_link (li_element : node) : option node :=
  match find_child is_user_link li_element with
  | Some link => Some link
  | None => find_desc is_user_link li_element
  end.

(** [link.get("name") or link["href"].replace("/~", "")] *)
Definition link_username (link : node) : string :=
  match link with
  | Tag _ attrs _ _ =>
      match attrs !! "name" with
      | Some n => if Py.truthy n then n
                  else Py.replace "/~" "" (default "" (attrs !! "href"))
      | None => Py.replace "/~" "" (default "" (attrs !! "href"))
      end
  | _ => ""
  end.

Definition link_classes (link : node) : list string :=
  match link with Tag _ _ cls _ => cls | _ => [] end.

(** [parse_li], with the list [users] it appends to passed through.
    [fuel] bounds the nesting depth followed. *)
Fixpoint parse_li (fuel : nat) (li_element : node)
    (parent_username : option string) (users : list user_fact)
    : list user_fact :=
  match fuel with
  | O => users
  | S fuel' =>
      match find_link li_element with
      | None => users
      | Some link =>
          let username := link_username link in
          let li_text := get_text li_element in
          let karma := match karma_search username li_text with
                       | Some ds => Py.int ds
                       | None => 0
                       end in
          let is_inactive :=
            existsb (String.eqb "inactive_user") (link_classes link) in
          let users := users ++ [mkFact username karma parent_username
                                        is_inactive] in
          match find_child (is_tag_with_class "ul" "user_tree") li_element with
          | Some nested_ul =>
              fold_left
                (fun users child_li =>
                   parse_li fuel' child_li (Some username) users)
                (find_all_children (is_tag "li") nested_ul) users
          | None => users
          end
      end
  end.

(** [parse_users_tree], on the parsed document [soup] (its top-level
    elements).  The nesting below the main tree is at most its height. *)
Definition parse_users_tree (soup : list node) : list user_fact :=
  match List.find (is_tag_with_class "ul" "user_tree") (descendants_of soup) with
  | None => []
  | Some main_tree =>
      fold_left
        (fun users li => parse_li (height main_tree) li None users)
        (find_all_children (is_tag "li") main_tree) []
  end.

(** *** Documents in the format the module documents

    [<a name="username" href="/~username">username</a> (karma)], with the
    invitees of a user in a nested [<ul class="user_tree">]. *)

#[warnings="-register-all"]
Inductive utree : Type :=
| UNode (uname : string) (ukarma : N) (uinactive : bool)
        (invited : list utree).

Definition attrs_of (l : list (string * string)) : gmap string string :=
  list_to_map l.

Definition render_link (u : string) (inactive : bool) : node :=
  Tag "a" (attrs_of [("name", u); ("href", "/~" +:+ u)])
      (if inactive then ["inactive_user"] else []) [Text u].

Fixpoint render_li (t : utree) : node :=
  match t with
  | UNode u k inactive invited =>
      Tag "li" (attrs_of []) []
        ([render_link u inactive; Text (" (" +:+ Py.str_of_N k +:+ ")")]
         ++ match invited with
            | [] => []
            | _ => [Tag "ul" (attrs_of []) ["user_tree"]
                      (map render_li invited)]
            end)
  end.

Definition render_tree (roots : list utree) : list node :=
  [Tag "ul" (attrs_of []) ["user_tree"] (map render_li roots)].

(** The facts of a forest in pre-order, each with its parent. *)
Fixpoint facts_of (parent : option string) (t : utree) : list user_fact :=
  match t with
  | UNode u k inactive invited =>
      mkFact u (Z.of_N k) parent inactive
      :: flat_map (facts_of (Some u)) invited
  end.

Definition forest_facts (roots : list utree) : list user_fact :=
  flat_map (facts_of None) roots.

(** The example of the specification, as written there (anchors without
    [href]) and with the documented [href]. *)
Definition spec_example : list node :=
  [Tag "ul" (attrs_of []) ["user_tree"]
     [Tag "li" (attrs_of []) []
        [Tag "a" (attrs_of [("name", "root")]) [] [Text "root"];
         Text " (100)";
         Tag "ul" (attrs_of []) ["user_tree"]
           [Tag "li" (attrs_of []) []
              [Tag "a" (attrs_of [("name", "child")]) [] [Text "child"];
               Text " (5)"]]]]].

Definition documented_example : list node :=
  [Tag "ul" (attrs_of []) ["user_tree"]
     [Tag "li" (attrs_of []) []
        [Tag "a" (attrs_of [("name", "root"); ("href", "/~root")]) []
           [Text "root"];
         Text " (100)";
         Tag "ul" (attrs_of []) ["user_tree"]
           [Tag "li" (attrs_of []) []
              [Tag "a" (attrs_of [("name", "child"); ("href", "/~child")]) []
                 [Text "child"];
               Text " (5)"]]]]].

Definition example_facts : list user_fact :=
  [mkFact "root" 100 None false; mkFact "child" 5 (Some "root") false].

Definition example_forest : list utree :=
  [UNode "root" 100 false [UNode "child" 5 false []]].

(** The fact an entry with user link [link] contributes. *)
Definition fact_of_entry (li link : node) (parent : option string)
    : user_fact :=
  mkFact (link_username link)
         (match karma_search (link_username link) (get_text li) with
          | Some ds => Py.int ds
          | None => 0
          end)
         parent
         (existsb (String.eqb "inactive_user") (link_classes link)).

(** The loop over the entries of one list. *)
Definition parse_each (fuel : nat) (parent : option string)
    (lis : list node) (users : list user_fact) : list user_fact :=
  fold_left (fun users li => parse_li fuel li parent users) lis users.

(** Nesting depth of a forest. *)
Fixpoint udepth (t : utree) : nat :=
  match t with
  | UNode _ _ _ invited =>
      S (fold_right (fun c acc => Nat.max (udepth c) acc) O invited)
  end.

Definition udepth_forest (ts : list utree) : nat :=
  fold_right (fun c acc => Nat.max (udepth c) acc) O ts.

(** Parents before children: the inviter of every fact of [l] is among
    [seen] or is the username of an earlier fact of [l]. *)
Fixpoint ordered_from (seen : list string) (l : list user_fact) : Prop :=
  match l with
  | [] => True
  | f :: l' =>
      (forall p, invited_by_username f = Some p -> In p seen)
      /\ ordered_from (username f :: seen) l'
  end.

(** [main] is the element [parse_users_tree] takes for the main tree. *)
Definition is_main_tree (soup : list node) (main : node) : Prop :=
  List.find (is_tag_with_class "ul" "user_tree") (descendants_of soup)
  = Some main.

(** A document with an entry that carries no user link between two
    well-formed ones; the nested entry of the middle one has an anchor with
    a [name] and no [href]. *)
Definition noise_entry : node :=
  Tag "li" (attrs_of []) []
    [Text "nobody (7)";
     Tag "ul" (attrs_of []) ["user_tree"]
       [Tag "li" (attrs_of []) []
          [Tag "a" (attrs_of [("name", "ghost")]) [] [Text "ghost"];
           Text " (3)"]]].

Definition noisy_tree : list node :=
  [Tag "ul" (attrs_of []) ["user_tree"]
     ([render_li (UNode "alice" 10 false [])]
      ++ noise_entry :: [render_li (UNode "bob" 2 true [])])].

Definition clean_tree : list node :=
  [Tag "ul" (attrs_of []) ["user_tree"]
     ([render_li (UNode "alice" 10 false [])]
      ++ [render_li (UNode "bob" 2 true [])])].

End ParseTree.

(** ** The record store ([scraper/db.py]) *)

Module Db.

(** A row of the [users] table. *)
Record user_row : Type := mkUser {
  id : Z;
  username : string;
  karma : option Z;
  about : option string;
  created_at : option string;
  invited_by_username : option string;
  github_username : option string;
  twitter_username : option string;
  website : option string;
  scraped_at : option string
}.

(** A row of the [enrichment] table. *)
Record enrichment_row : Type := mkEnrichment {
  e_id : Z;
  e_username : string;
  full_name : option string;
  linkedin_url : option string;
  github_url : option string;
  twitter_url : option string;
  company : option string;
  title : option string;
  location : option string;
  bio : option string;
  other_urls : option string;
  raw_response : option string;
  enriched_at : option string
}.

(** The database: each table keyed by its [UNIQUE] username, with the
    [AUTOINCREMENT] counter SQLite keeps for it in [sqlite_sequence].
    Integers are unbounded here; the 64-bit limits of SQLite, and the
    exceptions they lead to, are added in [Calls]. *)
Record db : Type := mkDb {
  users : gmap string user_row;
  users_seq : Z;
  enrichment : gmap string enrichment_row;
  enrichment_seq : Z
}.

(** The state [init_db] creates from nothing. *)
Definition empty_db : db := mkDb ∅ 0 ∅ 0.

(** SQL [COALESCE(x, y)] *)
Definition coalesce {A : Type} (x y : option A) : option A :=
  match x with Some _ => x | None => y end.

(** The id an [AUTOINCREMENT] insert picks: one more than the largest id
    ever used. *)
Definition next_id {R : Type} (rowid : R -> Z) (table : gmap string R)
    (seq : Z) : Z :=
  1 + map_fold (fun _ r acc => Z.max (rowid r) acc) seq table.

(** [ON CONFLICT(username) DO UPDATE SET c = COALESCE(excluded.c, c), ...]
    applied to the stored row [r]. *)
Definition user_do_update (excluded r : user_row) : user_row :=
  {| id := id r;
     username := username r;
     karma := coalesce (karma excluded) (karma r);
     about := coalesce (about excluded) (about r);
     created_at := coalesce (created_at excluded) (created_at r);
     invited_by_username :=
       coalesce (invited_by_username excluded) (invited_by_username r);
     github_username := coalesce (github_username excluded) (github_username r);
     twitter_username :=
       coalesce (twitter_username excluded) (twitter_username r);
     website := coalesce (website excluded) (website r);
     scraped_at := coalesce (scraped_at excluded) (scraped_at r) |}.

(** [INSERT INTO users ... ON CONFLICT(username) DO UPDATE ...] with the row
    [excluded] proposed for insertion.  SQLite draws the new id before it
    detects the conflict, so the counter advances either way. *)
Definition upsert_user_row (excluded : user_row) (s : db) : db :=
  let row := match users s !! username excluded with
             | Some r => user_do_update excluded r
             | None => excluded
             end in
  {| users := <[username excluded := row]> (users s);
     users_seq := id excluded;
     enrichment := enrichment s;
     enrichment_seq := enrichment_seq s |}.

(** [upsert_user]: what the statement does once its values are bound and
    its id is drawn.  [Calls.upsert_user_call] is the call with the two
    ways it can raise instead. *)
Definition upsert_user (username : string) (karma : option Z)
    (about created_at invited_by_username github_username twitter_username
       website scraped_at : option string) (s : db) : db :=
  upsert_user_row
    (mkUser (next_id id (users s) (users_seq s)) username karma about
            created_at invited_by_username github_username twitter_username
            website scraped_at) s.

(** [get_user] *)
Definition get_user (username : string) (s : db) : option user_row :=
  users s !! username.

(** A stored user, and a later upsert of the same user. *)
Definition alice_stored : db :=
  upsert_user "alice" (Some 100) None None (Some "root") None None None None
              empty_db.

Definition alice_again : db :=
  upsert_user "alice" (Some 5) None None None None None None None
              alice_stored.

End Db.

(** ** Ingestion of the reconstructed tree ([main] of
    [scraper/parse_tree.py]) *)

Module Ingest.

(** The row [upsert_user(username=..., karma=..., invited_by_username=...)]
    proposes for a fact, under the id [i]. *)
Definition fact_row (i : Z) (user : ParseTree.user_fact) : Db.user_row :=
  Db.mkUser i (ParseTree.username user) (Some (ParseTree.karma user))
            None None (ParseTree.invited_by_username user)
            None None None None.

(** The loop over the facts. *)
Definition ingest (users : list ParseTree.user_fact) (s : Db.db) : Db.db :=
  fold_left
    (fun s user =>
       Db.upsert_user (ParseTree.username user)
         (Some (ParseTree.karma user)) None None
         (ParseTree.invited_by_username user) None None None None s)
    users s.

(** What the facts of [users] about the username [k] do, in order, to a
    stored row of [k]. *)
Definition apply_facts (k : string) (users : list ParseTree.user_fact)
    (r : Db.user_row) : Db.user_row :=
  fold_left
    (fun r user =>
       if decide (ParseTree.username user = k)
       then Db.user_do_update (fact_row 0 user) r else r)
    users r.

End Ingest.

(** ** The profile link classifier ([scraper/scrape.py]) *)

Module Scrape.
Import Dom.

(** The dictionary [parse_user_profile] builds; a key that is absent is
    [None]. *)
Record profile_data : Type := mkProfile {
  username : string;
  karma : option Z;
  created_at : option string;
  invited_by_username : option string;
  about : option string;
  github_username : option string;
  twitter_username : option string;
  website : option string
}.

Definition opt_prefix (p s : string) : string :=
  match Py.drop_prefix p s with Some r => r | None => s end.

Definition drop_any (hosts : list string) (s : string) : option string :=
  fold_right (fun h acc => match Py.drop_prefix h s with
                           | Some r => Some r
                           | None => acc
                           end) None hosts.

(** [$] after an optional slash: the end of the string, or a final newline *)
Definition at_end (s : string) : bool :=
  let s := opt_prefix "/" s in
  String.eqb s "" || String.eqb s (String "010" "").

(** [re.match(r"https?://(?:www\.)?HOST\.com/([NAME]+)/?$", href)], with
    [HOST] one of [hosts]: group 1. *)
Definition match_profile_url (hosts : list string) (dash : bool)
    (href : string) : option string :=
  match Py.drop_prefix "http" href with
  | None => None
  | Some r =>
      match Py.drop_prefix "://" (opt_prefix "s" r) with
      | None => None
      | Some r =>
          match drop_any hosts (opt_prefix "www." r) with
          | None => None
          | Some r =>
              match Py.span (Py.is_handle_char dash) r with
              | (String c name, rest) =>
                  if at_end rest then Some (String c name) else None
              | _ => None
              end
          end
      end
  end.

Definition known_platforms : list string :=
  ["github.com"; "twitter.com"; "x.com"; "linkedin.com"; "lobste.rs";
   "reddit.com"; "news.ycombinator.com"].

(** The body of the loop over the links, for one [href]. *)
Definition classify_link (data : profile_data) (href : string)
    : profile_data :=
  let data :=
    match match_profile_url ["github.com/"] true href with
    | Some g =>
        mkProfile (username data) (karma data) (created_at data)
                  (invited_by_username data) (about data)
                  (Some g) (twitter_username data) (website data)
    | None => data
    end in
  let data :=
    match match_profile_url ["twitter.com/"; "x.com/"] false href with
    | Some t =>
        mkProfile (username data) (karma data) (created_at data)
                  (invited_by_username data) (about data)
                  (github_username data) (Some t) (website data)
    | None => data
    end in
  if Py.startswith "http" href
     && negb (existsb (fun domain => Py.contains domain href) known_platforms)
  then match website data with
       | None =>
           mkProfile (username data) (karma data) (created_at data)
                     (invited_by_username data) (about data)
                     (github_username data) (twitter_username data)
                     (Some href)
       | Some _ => data
       end
  else data.

(** [soup.find_all("a", href=True)], as the list of the [href] values *)
Definition link_hrefs (soup : list node) : list string :=
  omap (fun n => match n with
                 | Tag nm attrs _ _ =>
                     if String.eqb nm "a" then attrs !! "href" else None
                 | _ => None
                 end) (descendants_of soup).

(** The link loop of [parse_user_profile], from the dictionary [data] the
    earlier heuristics left. *)
Definition extract_links (soup : list node) (data : profile_data)
    : profile_data :=
  fold_left classify_link (link_hrefs soup) data.

(** A profile page with two GitHub links, two Twitter/X links and two
    other links, and the dictionary before the link loop. *)
Definition link_to (href : string) : node :=
  Tag "a" (list_to_map [("href", href)]) [] [Text href].

Definition two_links_page : list node :=
  [Tag "div" (list_to_map []) []
     [link_to "https://github.com/alice";
      link_to "https://twitter.com/alice_t";
      link_to "https://alice.example";
      link_to "https://github.com/bob";
      link_to "https://x.com/bob_t";
      link_to "https://bob.example"]].

Definition fresh_profile (username : string) : profile_data :=
  mkProfile username None None None None None None None.

End Scrape.

(** ** The enrichment merger ([scraper/enrich.py]) *)

Module Enrich.

(** [build_search_query], on a row of [users]; [None] is Python's [None]. *)
Definition build_search_query (user : Db.user_row) : option string :=
  let parts : list string := [] in
  let username := Db.username user in
  let about := default "" (Db.about user) in
  let parts :=
    match Db.github_username user with
    | Some g => if Py.truthy g then parts ++ ["github.com/" +:+ g] else parts
    | None => parts
    end in
  let parts :=
    match Db.twitter_username user with
    | Some t => if Py.truthy t then parts ++ ["@" +:+ t] else parts
    | None => parts
    end in
  let parts :=
    match Db.website user with
    | Some w => if Py.truthy w then parts ++ [w] else parts
    | None => parts
    end in
  let finish (parts : list string) : option string :=
    let query := Py.join " " parts in
    if (length parts =? 1)%nat
       && negb (existsb (fun x => Py.contains x (Py.lower query))
                        ["github"; "twitter"; "@"])
    then Some (query +:+ " software engineer developer")
    else Some query in
  match parts with
  | [] =>
      if (String.length about <? 20)%nat then None
      else
        let bio_snippet :=
          Py.replace (String "010" "") " " (Py.take 100 about) in
        finish (parts ++ [username +:+ " " +:+ bio_snippet])
  | _ => finish parts
  end.

(** One ranked candidate of the people search. *)
Record search_result : Type := mkResult {
  url : string;
  r_title : option string
}.

(** The dictionary [enrich_user] builds.  Its [other_urls] entry holds a
    list while the candidates are walked and the JSON text of that list
    afterwards: [U] is the type of that entry. *)
Record enrichment {U : Type} : Type := mkEnr {
  username : string;
  full_name : option string;
  linkedin_url : option string;
  github_url : option string;
  twitter_url : option string;
  company : option string;
  title : option string;
  location : option string;
  bio : option string;
  other_urls : U;
  raw_response : string;
  enriched_at : string
}.
Arguments enrichment : clear implicits.

(** [s.split(sep)[0]] for a non-empty [sep] *)
Fixpoint before_first (sep s : string) : string :=
  match Py.drop_prefix sep s with
  | Some _ => ""
  | None => match s with
            | EmptyString => ""
            | String c s' => String c (before_first sep s')
            end
  end.

Definition lstrip (s : string) : string := snd (Py.span Py.is_space s).

Fixpoint rstrip (s : string) : string :=
  match s with
  | EmptyString => ""
  | String c s' =>
      match rstrip s' with
      | EmptyString => if Py.is_space c then "" else String c ""
      | r => String c r
      end
  end.

(** [s.strip()] *)
Definition strip (s : string) : string := rstrip (lstrip s).

Section Setters.
Context {U : Type}.

Definition set_linkedin (e : enrichment U) (u : string) : enrichment U :=
  mkEnr U (username e) (full_name e) (Some u) (github_url e) (twitter_url e)
        (company e) (title e) (location e) (bio e) (other_urls e)
        (raw_response e) (enriched_at e).

Definition set_full_name (e : enrichment U) (n : string) : enrichment U :=
  mkEnr U (username e) (Some n) (linkedin_url e) (github_url e)
        (twitter_url e) (company e) (title e) (location e) (bio e)
        (other_urls e) (raw_response e) (enriched_at e).

Definition set_github (e : enrichment U) (u : string) : enrichment U :=
  mkEnr U (username e) (full_name e) (linkedin_url e) (Some u)
        (twitter_url e) (company e) (title e) (location e) (bio e)
        (other_urls e) (raw_response e) (enriched_at e).

Definition set_twitter (e : enrichment U) (u : string) : enrichment U :=
  mkEnr U (username e) (full_name e) (linkedin_url e) (github_url e)
        (Some u) (company e) (title e) (location e) (bio e) (other_urls e)
        (raw_response e) (enriched_at e).
End Setters.

Definition set_other_urls {U V : Type} (e : enrichment U) (l : V)
    : enrichment V :=
  mkEnr V (username e) (full_name e) (linkedin_url e) (github_url e)
        (twitter_url e) (company e) (title e) (location e) (bio e) l
        (raw_response e) (enriched_at e).

(** [x in l] for a list of strings *)
Definition mem (x : string) (l : list string) : bool :=
  existsb (String.eqb x) l.

(** The body of the loop over the candidates. *)
Definition merge_result (e : enrichment (list string))
    (result : search_result) : enrichment (list string) :=
  let lurl := Py.lower (url result) in
  let ttl := default "" (r_title result) in
  if Py.contains "linkedin.com/in/" lurl
     && negb (Py.truthy_opt (linkedin_url e))
  then
    let e := set_linkedin e (url result) in
    if Py.contains " - " ttl then
      let name_part := strip (before_first " - " ttl) in
      if negb (Py.truthy_opt (full_name e)) then set_full_name e name_part
      else e
    else e
  else if Py.contains "github.com/" lurl
          && negb (Py.truthy_opt (github_url e))
  then set_github e (url result)
  else if (Py.contains "twitter.com/" lurl || Py.contains "x.com/" lurl)
          && negb (Py.truthy_opt (twitter_url e))
  then set_twitter e (url result)
  else
    if negb (mem (url result) (other_urls e))
    then set_other_urls e (other_urls e ++ [url result])
    else e.

Definition merge_results (results : list search_result)
    (e : enrichment (list string)) : enrichment (list string) :=
  fold_left merge_result results e.

(** The dictionary before the loop. *)
Definition blank (username raw now : string) : enrichment (list string) :=
  mkEnr (list string) username None None None None None None None None [] raw now.

(** [json.dumps] of a list of strings *)
Definition hex_digit (n : N) : ascii :=
  ascii_of_N (if (n <? 10)%N then 48 + n else 87 + n).

Definition quote : ascii := "034"%char.
Definition backslash : ascii := "092"%char.

Definition json_char (c : ascii) : string :=
  let n := Py.code c in
  let esc (x : string) := String backslash x in
  if (n =? 34)%N then esc (String quote "")
  else if (n =? 92)%N then esc (String backslash "")
  else if (n =? 10)%N then esc "n"
  else if (n =? 13)%N then esc "r"
  else if (n =? 9)%N then esc "t"
  else if (n =? 8)%N then esc "b"
  else if (n =? 12)%N then esc "f"
  else if ((32 <=? n)%N && (n <=? 126)%N) then String c ""
  else esc ("u00" +:+ String (hex_digit (n / 16))
                        (String (hex_digit (n mod 16)) "")).

Fixpoint json_string_body (s : string) : string :=
  match s with
  | EmptyString => ""
  | String c s' => json_char c +:+ json_string_body s'
  end.

Definition json_dumps (l : list string) : string :=
  "[" +:+ Py.join ", "
            (map (fun s => String quote (json_string_body s)
                           +:+ String quote "") l) +:+ "]".

Section EnrichUser.

(** The people search: the candidates for a query, or [None] when the
    call raises; the serialization of the raw response; the clock. *)
Variable search : string -> option (list search_result).
Variable dump_raw : list search_result -> string.
Variable utcnow : string.

(** [enrich_user]: the dictionary to save, or [None]. *)
Definition enrich_user (user : Db.user_row) : option (enrichment string) :=
  match build_search_query user with
  | None => None
  | Some query =>
      if negb (Py.truthy query) then None
      else
        match search query with
        | None => None
        | Some [] => None
        | Some results =>
            let e := merge_results results
                       (blank (Db.username user) (dump_raw results) utcnow) in
            Some (set_other_urls e (json_dumps (other_urls e)))
        end
  end.

End EnrichUser.

(** The row [save_enrichment] proposes for insertion: the twelve values
    bound to the statement, under the id SQLite draws. *)
Definition enrichment_excluded (new_id : Z) (e : enrichment string)
    : Db.enrichment_row :=
  Db.mkEnrichment new_id (username e) (full_name e) (linkedin_url e)
    (github_url e) (twitter_url e) (company e) (title e) (location e)
    (bio e) (Some (other_urls e)) (Some (raw_response e))
    (Some (enriched_at e)).

(** [ON CONFLICT(username) DO UPDATE SET c = excluded.c, ...] applied to the
    stored row [r]. *)
Definition enrichment_do_update (excluded r : Db.enrichment_row)
    : Db.enrichment_row :=
  Db.mkEnrichment (Db.e_id r) (Db.e_username r)
    (Db.full_name excluded) (Db.linkedin_url excluded)
    (Db.github_url excluded) (Db.twitter_url excluded)
    (Db.company excluded) (Db.title excluded) (Db.location excluded)
    (Db.bio excluded) (Db.other_urls excluded) (Db.raw_response excluded)
    (Db.enriched_at excluded).

(** [save_enrichment] *)
Definition save_enrichment (e : enrichment string) (s : Db.db) : Db.db :=
  let new_id := Db.next_id Db.e_id (Db.enrichment s) (Db.enrichment_seq s) in
  let excluded := enrichment_excluded new_id e in
  let row := match Db.enrichment s !! username e with
             | Some r => enrichment_do_update excluded r
             | None => excluded
             end in
  {| Db.users := Db.users s;
     Db.users_seq := Db.users_seq s;
     Db.enrichment := <[username e := row]> (Db.enrichment s);
     Db.enrichment_seq := new_id |}.

(** Two LinkedIn candidates for one user. *)
Definition linkedin_first : search_result :=
  mkResult "https://www.linkedin.com/in/alice-a"
           (Some "Alice A - Engineer - Acme | LinkedIn").

Definition linkedin_second : search_result :=
  mkResult "https://www.linkedin.com/in/alice-b" None.

(** Two enrichments of one user with different fields set. *)
Definition first_enrichment : enrichment string :=
  mkEnr string "alice" (Some "Alice A")
        (Some "https://linkedin.com/in/alice") None None
        None None None None "[]" "raw1" "t1".

Definition second_enrichment : enrichment string :=
  mkEnr string "alice" None None (Some "https://github.com/alice") None
        None None None None "[]" "raw2" "t2".

Definition enriched_once : Db.db :=
  save_enrichment first_enrichment Db.empty_db.

End Enrich.

(** ** The read queries of the store ([scraper/db.py]) and the statistics
    of the export ([scripts/export.py]) *)

Module Queries.
Import Db.

(** [get_invitation_tree]: the pairs (invitee, inviter).  SQL leaves the
    order of the rows open; the list is in the order [map_to_list] gives. *)
Definition get_invitation_tree (s : db) : list (string * string) :=
  omap (fun kr : string * user_row =>
          match invited_by_username kr.2 with
          | Some inviter => Some (username kr.2, inviter)
          | None => None
          end)
       (map_to_list (users s)).

(** The [WHERE] clause of [get_users_for_enrichment], for a row of [users]
    left-joined with [enrichment]. *)
Definition enrichable (u : user_row) : bool :=
  match about u with
  | Some a => negb (String.eqb a "")
  | None => false
  end
  || bool_decide (is_Some (github_username u))
  || bool_decide (is_Some (twitter_username u))
  || bool_decide (is_Some (website u)).

Definition eligible (s : db) (u : user_row) : bool :=
  bool_decide (enrichment s !! username u = None) && enrichable u.

(** [get_users_for_enrichment], without its [ORDER BY]: the rows in the
    order [map_to_list] gives. *)
Definition get_users_for_enrichment (s : db) : list user_row :=
  List.filter (eligible s) (map_to_list (users s)).*2.

(** [SELECT COUNT( * ) FROM users] *)
Definition total_users (s : db) : nat := size (users s).

(** [len(edge_list)] *)
Definition total_edges (s : db) : nat := length (get_invitation_tree s).

(** [SELECT MAX(karma) FROM users]: null karmas do not count; null when no
    karma is stored. *)
Definition sql_max_karma (s : db) : option Z :=
  map_fold (fun _ r acc =>
              match karma r, acc with
              | Some k, Some m => Some (Z.max k m)
              | Some k, None => Some k
              | None, _ => acc
              end) None (users s).

(** [cur.fetchone()[0] or 0] *)
Definition max_karma (s : db) : Z :=
  match sql_max_karma s with
  | Some m => if (m =? 0)%Z then 0 else m
  | None => 0
  end.

(** Every row is stored under its own username, and no two rows share an
    id. *)
Definition store_ok (s : db) : Prop :=
  (forall k r, users s !! k = Some r -> username r = k)
  /\ (forall k1 k2 r1 r2,
        users s !! k1 = Some r1 -> users s !! k2 = Some r2 ->
        id r1 = id r2 -> k1 = k2).

(** Every stored inviter is a stored user. *)
Definition closed (s : db) : Prop :=
  forall k r p,
    users s !! k = Some r -> invited_by_username r = Some p ->
    is_Some (users s !! p).

End Queries.

(** What a list of facts leaves for one username. *)
Module IngestSpec.

(** The last fact about [x]. *)
Definition last_fact (x : string) (l : list ParseTree.user_fact)
    : option ParseTree.user_fact :=
  fold_left (fun acc f => if decide (ParseTree.username f = x)
                          then Some f else acc) l None.

(** The last inviter a fact about [x] names, [init] when none does. *)
Definition last_inviter (x : string) (l : list ParseTree.user_fact)
    (init : option string) : option string :=
  fold_left (fun acc f => if decide (ParseTree.username f = x)
                          then Db.coalesce (ParseTree.invited_by_username f) acc
                          else acc) l init.

(** Facts that mention one username twice. *)
Definition duplicate_facts : list ParseTree.user_fact :=
  [ParseTree.mkFact "alice" 10 None false;
   ParseTree.mkFact "carol" 4 (Some "alice") false;
   ParseTree.mkFact "carol" 9 None false].

End IngestSpec.

(** ** Notions used to state what the enrichment merger keeps *)

Module EnrichSpec.
Import Enrich.

(** Every character of [s] is a printable ASCII character. *)
Definition all_printable (s : string) : bool :=
  forallb (fun c => (32 <=? Py.code c)%N && (Py.code c <=? 126)%N)
          (list_ascii_of_string s).

(** The URL [x] sits in one of the three profile fields or in
    [other_urls]. *)
Definition placed (e : enrichment (list string)) (x : string) : Prop :=
  (linkedin_url e = Some x /\ Py.truthy x = true)
  \/ (github_url e = Some x /\ Py.truthy x = true)
  \/ (twitter_url e = Some x /\ Py.truthy x = true)
  \/ In x (other_urls e).

(** The URL [x] is the value of [github_url] or of [twitter_url], or is in
    [other_urls]. *)
Definition kept_aside (e : enrichment (list string)) (x : string) : Prop :=
  github_url e = Some x \/ twitter_url e = Some x \/ In x (other_urls e).

(** The [elif]/[else] branches of the loop body, below the LinkedIn test. *)
Definition below_linkedin (e : enrichment (list string))
    (result : search_result) : enrichment (list string) :=
  let lurl := Py.lower (url result) in
  if Py.contains "github.com/" lurl
     && negb (Py.truthy_opt (github_url e))
  then set_github e (url result)
  else if (Py.contains "twitter.com/" lurl || Py.contains "x.com/" lurl)
          && negb (Py.truthy_opt (twitter_url e))
  then set_twitter e (url result)
  else
    if negb (mem (url result) (other_urls e))
    then set_other_urls e (other_urls e ++ [url result])
    else e.

(** Candidates for one user: a LinkedIn profile, a GitHub profile, the same
    GitHub profile again, and a personal site listed twice. *)
Definition sample_results : list search_result :=
  [mkResult "https://github.com/alice" None;
   mkResult "https://www.linkedin.com/in/alice-a"
            (Some "Alice A - Engineer - Acme | LinkedIn");
   mkResult "https://github.com/alice" None;
   mkResult "https://alice.example" None;
   mkResult "https://alice.example" None].

(** A user known by a short bio only, and one known by a website. *)
Definition short_bio_user : Db.user_row :=
  Db.mkUser 1 "dave" (Some 3) (Some "hi there") None None None None None
            None.

Definition website_user : Db.user_row :=
  Db.mkUser 2 "erin" (Some 8) None None None None None
            (Some "https://erin.example") None.

(** The terms [build_search_query] gathers from the link fields. *)
Definition link_terms (user : Db.user_row) : list string :=
  (if Py.truthy_opt (Db.github_username user)
   then ["github.com/" +:+ default "" (Db.github_username user)] else [])
  ++ (if Py.truthy_opt (Db.twitter_username user)
      then ["@" +:+ default "" (Db.twitter_username user)] else [])
  ++ (if Py.truthy_opt (Db.website user)
      then [default "" (Db.website user)] else []).

(** A user known by a Twitter username and a website. *)
Definition twitter_user : Db.user_row :=
  Db.mkUser 3 "frank" None (Some "hello") None None None (Some "frank_t")
            (Some "https://frank.example") None.

End EnrichSpec.

(** ** The rest of the scraper ([scraper/scrape.py]) *)

Module ScrapeMore.
Import Dom Scrape.

(** Every character of [s] satisfies [p]. *)
Definition all_chars (p : ascii -> bool) (s : string) : bool :=
  forallb p (list_ascii_of_string s).

Definition newline : string := String "010" "".

(** [re.match(r"^/(?:u/|~)([a-zA-Z0-9_-]+)$", href)]: group 1. *)
Definition match_user_path (href : string) : option string :=
  match Py.drop_prefix "/" href with
  | None => None
  | Some r =>
      match drop_any ["u/"; "~"] r with
      | None => None
      | Some r =>
          match Py.span (Py.is_handle_char true) r with
          | (String c name, rest) =>
              if String.eqb rest "" || String.eqb rest newline
              then Some (String c name) else None
          | _ => None
          end
      end
  end.

(** [parse_user_list_page]: [list(set(usernames))], a list in no
    particular order, as the set of its elements. *)
Definition parse_user_list_page (soup : list node) : gset string :=
  list_to_set (omap match_user_path (link_hrefs soup)).

(** The strings of a document in document order, comments included: what
    [soup.find(string=...)] looks at. *)
Fixpoint strings (n : node) : list string :=
  match n with
  | Tag _ _ _ cs => flat_map strings cs
  | Text s => [s]
  | Comment s => [s]
  end.

(** [\d+\s*karma], ignoring case, at the head of [s] *)
Definition karma_word_here (s : string) : bool :=
  match Py.span Py.is_digit s with
  | (String _ _, r) =>
      Py.startswith "karma" (Py.lower (snd (Py.span Py.is_space r)))
  | _ => false
  end.

(** [re.compile(r"\d+\s*karma", re.I).search(s)] succeeds *)
Fixpoint mentions_karma (s : string) : bool :=
  karma_word_here s
  || match s with
     | EmptyString => false
     | String _ s' => mentions_karma s'
     end.

(** [re.search(r"(\d+)", s)]: group 1, the leftmost run of digits. *)
Fixpoint first_number (s : string) : option string :=
  match s with
  | EmptyString => None
  | String c s' =>
      if Py.is_digit c then Some (fst (Py.span Py.is_digit s))
      else first_number s'
  end.

(** The karma heuristic of [parse_user_profile]: the value of
    [data["karma"]], [None] when the key is not set. *)
Definition profile_karma (soup : list node) : option Z :=
  match List.find mentions_karma (flat_map strings soup) with
  | Some karma_match =>
      match first_number karma_match with
      | Some karma_num => Some (Py.int karma_num)
      | None => None
      end
  | None => None
  end.

(** A profile page that states the age of the account before the karma. *)
Definition aged_profile_page : list node :=
  [Tag "div" (list_to_map []) []
     [Tag "span" (list_to_map []) [] [Text "Joined 2 years ago"];
      Text "2 years ago, 150 karma"]].

(** [upsert_user( ** user_data)] for the dictionary [parse_user_profile]
    returns, [scraped_at] being its timestamp. *)
Definition upsert_profile (data : profile_data) (scraped_at : string)
    (s : Db.db) : Db.db :=
  Db.upsert_user (username data) (karma data) (about data)
    (created_at data) (invited_by_username data) (github_username data)
    (twitter_username data) (website data) (Some scraped_at) s.

(** [username] has a row with a non-empty [scraped_at]. *)
Definition scraped (username : string) (s : Db.db) : Prop :=
  exists r, Db.get_user username s = Some r
            /\ Py.truthy_opt (Db.scraped_at r) = true.

Section Main.

(** [scrape_user]: the dictionary and its [scraped_at], or [None] when the
    page could not be fetched. *)
Variable scrape_user : string -> option (profile_data * string).

(** The body of the loop of [main] for one username. *)
Definition scrape_one (s : Db.db) (username : string) : Db.db :=
  let already :=
    match Db.get_user username s with
    | Some existing => Py.truthy_opt (Db.scraped_at existing)
    | None => false
    end in
  if already then s
  else match scrape_user username with
       | Some (user_data, scraped_at) => upsert_profile user_data scraped_at s
       | None =>
           Db.upsert_user username None None None None None None None None s
       end.

Definition scrape_all (usernames : list string) (s : Db.db) : Db.db :=
  fold_left scrape_one usernames s.

End Main.

(** What [requests.get] does at one attempt. *)
Inductive response : Type :=
| Http (status_code : Z) (text : string)
| RequestException.

(** The outcome of [fetch_with_retry]: what it returns, how many requests
    it made and the back-off delays it slept, in seconds. *)
Record fetch_outcome : Type := mkOutcome {
  fetched : option string;
  requests : nat;
  backoffs : list Z
}.

Definition MAX_RETRIES : nat := 3.
Definition RETRY_BACKOFF : Z := 5.

(** The loop of [fetch_with_retry] from attempt [attempt] on, [todo]
    attempts being left; [respond i] is what the request of attempt [i]
    does.  The delay before each request is not recorded. *)
Fixpoint fetch_from (todo attempt : nat) (respond : nat -> response)
    (made : nat) (slept : list Z) : fetch_outcome :=
  match todo with
  | O => mkOutcome None made slept
  | S todo' =>
      match respond attempt with
      | Http status_code text =>
          if (status_code =? 200)%Z then mkOutcome (Some text) (S made) slept
          else if (status_code =? 429)%Z then
            fetch_from todo' (S attempt) respond (S made)
              (slept ++ [RETRY_BACKOFF * 2 ^ Z.of_nat attempt])
          else mkOutcome None (S made) slept
      | RequestException =>
          fetch_from todo' (S attempt) respond (S made)
            (if (attempt <? MAX_RETRIES - 1)%nat
             then slept ++ [RETRY_BACKOFF * 2 ^ Z.of_nat attempt]
             else slept)
      end
  end.

Definition fetch_with_retry (respond : nat -> response) : fetch_outcome :=
  fetch_from MAX_RETRIES 0 respond 0 [].

(** A scrape function for the examples: every page is fetched, and holds
    a karma of 1. *)
Definition sample_scrape (u : string) : option (profile_data * string) :=
  Some (mkProfile u (Some 1) None None None None None None,
        "2024-01-01T00:00:00").

(** What the server answers when it rate-limits every request. *)
Definition always_429 (i : nat) : response := Http 429 "slow down".

(** A users page with the two kinds of profile links, a repeated one and
    a link that is no profile link. *)
Definition users_page : list node :=
  [Tag "ul" (list_to_map []) []
     [Tag "a" (list_to_map [("href", "/~bob")]) [] [Text "bob"];
      Tag "a" (list_to_map [("href", "/u/al-ice_1")]) [] [Text "alice"];
      Tag "a" (list_to_map [("href", "/~bob")]) [] [Text "bob again"];
      Tag "a" (list_to_map [("href", "/~bob/threads")]) [] [Text "threads"]]].

End ScrapeMore.

(** ** Entries used to state edge cases of the tree reconstructor *)

Module ParseTreeSpec.
Import Dom ParseTree.

(** An entry whose anchor has no [name] attribute and whose text gives no
    karma. *)
Definition nameless_entry : node :=
  Tag "li" (attrs_of []) []
    [Tag "a" (attrs_of [("href", "/~dana")]) ["inactive_user"]
       [Text "Dana"];
     Text " joined recently"].

Definition not_paren (c : ascii) : bool := negb (Ascii.eqb c "(").

(** The entries the traversal of [parse_users_tree] visits, each with the
    inviter it is visited under: the [li] children of the main tree, with
    no inviter, and the [li] children of the nested list of a visited entry
    that has a user link, with the username of that link. *)
Inductive visits (main : node) : node -> option string -> Prop :=
| visits_top (li : node) :
    In li (find_all_children (is_tag "li") main) ->
    visits main li None
| visits_nested (e : node) (p : option string) (link ul li : node) :
    visits main e p ->
    find_link e = Some link ->
    find_child (is_tag_with_class "ul" "user_tree") e = Some ul ->
    In li (find_all_children (is_tag "li") ul) ->
    visits main li (Some (link_username link)).

(** A document whose entry without a user link sits in a nested list, before
    a well-formed sibling. *)
Definition carol_entry : node := render_li (UNode "carol" 4 false []).

Definition alice_list : node :=
  Tag "ul" (attrs_of []) ["user_tree"] [noise_entry; carol_entry].

Definition alice_entry : node :=
  Tag "li" (attrs_of []) []
    [render_link "alice" false; Text " (10)"; alice_list].

Definition nested_noise_main : node :=
  Tag "ul" (attrs_of []) ["user_tree"]
    [alice_entry; render_li (UNode "bob" 2 true [])].

Definition nested_noise_tree : list node := [nested_noise_main].

(** An entry with no anchor of its own whose nested list holds a
    well-formed entry, and a document with it. *)
Definition ghost_child : node := render_li (UNode "ghost" 3 false []).

Definition ghost_list : node :=
  Tag "ul" (attrs_of []) ["user_tree"] [ghost_child].

Definition ghost_entry : node :=
  Tag "li" (attrs_of []) [] [Text "nobody (7)"; ghost_list].

Definition ghost_main : node :=
  Tag "ul" (attrs_of []) ["user_tree"]
    [render_li (UNode "alice" 10 false []); ghost_entry].

Definition ghost_tree : list node := [ghost_main].

End ParseTreeSpec.

(** ** The calls of the store as Python runs them

    [sqlite3] binds a Python [int] as a 64-bit integer and raises
    [OverflowError] for any other; SQLite refuses to draw an id for an
    [AUTOINCREMENT] table once the largest one, [2^63 - 1], has been used
    ([OperationalError]).  Either way the statement writes nothing,
    [get_cursor] closes the connection without a commit, and the exception
    leaves the call and the loop around it. *)

Module Calls.
Import Scrape ScrapeMore.

Definition INT64_MIN : Z := - 2 ^ 63.
Definition INT64_MAX : Z := 2 ^ 63 - 1.

(** The value can be bound as an SQLite [INTEGER]; [None] is bound as
    [NULL]. *)
Definition binds (k : option Z) : bool :=
  match k with
  | Some k => (INT64_MIN <=? k) && (k <=? INT64_MAX)
  | None => true
  end.

(** The [users] table has an id left to draw. *)
Definition has_room (s : Db.db) : bool :=
  Db.next_id Db.id (Db.users s) (Db.users_seq s) <=? INT64_MAX.

(** The [users] table has ids left for [n] more statements. *)
Definition room_for (n : nat) (s : Db.db) : Prop :=
  Db.next_id Db.id (Db.users s) (Db.users_seq s) + Z.of_nat n
  <= INT64_MAX + 1.

(** How a run ends, with the database it leaves: it returns, or an
    exception leaves it. *)
Inductive run : Type :=
| Returned (s : Db.db)
| Raised (s : Db.db).

Definition state_of (r : run) : Db.db :=
  match r with Returned s | Raised s => s end.

(** [upsert_user], as a call *)
Definition upsert_user_call (username : string) (karma : option Z)
    (about created_at invited_by_username github_username twitter_username
       website scraped_at : option string) (s : Db.db) : run :=
  if binds karma && has_room s
  then Returned (Db.upsert_user username karma about created_at
                   invited_by_username github_username twitter_username
                   website scraped_at s)
  else Raised s.

(** A [for] loop whose body may raise. *)
Fixpoint run_each {A : Type} (body : Db.db -> A -> run) (l : list A)
    (s : Db.db) : run :=
  match l with
  | [] => Returned s
  | x :: l' =>
      match body s x with
      | Returned s' => run_each body l' s'
      | Raised s' => Raised s'
      end
  end.

(** The ingestion loop of [main] in [parse_tree.py] *)
Definition ingest_run (users : list ParseTree.user_fact) (s : Db.db) : run :=
  run_each
    (fun s user =>
       upsert_user_call (ParseTree.username user)
         (Some (ParseTree.karma user)) None None
         (ParseTree.invited_by_username user) None None None None s)
    users s.

(** [upsert_user] called with the entries of [user_data] as arguments *)
Definition upsert_profile_call (data : profile_data) (scraped_at : string)
    (s : Db.db) : run :=
  upsert_user_call (username data) (karma data) (about data)
    (created_at data) (invited_by_username data) (github_username data)
    (twitter_username data) (website data) (Some scraped_at) s.

Section MainRun.

Variable scrape_user : string -> option (profile_data * string).

(** The body of the loop of [main] in [scrape.py], and the loop *)
Definition scrape_one_run (s : Db.db) (username : string) : run :=
  let already :=
    match Db.get_user username s with
    | Some existing => Py.truthy_opt (Db.scraped_at existing)
    | None => false
    end in
  if already then Returned s
  else match scrape_user username with
       | Some (user_data, scraped_at) =>
           upsert_profile_call user_data scraped_at s
       | None =>
           upsert_user_call username None None None None None None None None
                            s
       end.

Definition scrape_all_run (usernames : list string) (s : Db.db) : run :=
  run_each scrape_one_run usernames s.

End MainRun.

(** Facts with a karma of twenty digits between two ordinary ones. *)
Definition overflowing_facts : list ParseTree.user_fact :=
  [ParseTree.mkFact "alice" 10 None false;
   ParseTree.mkFact "bob" 10000000000000000000 (Some "alice") false;
   ParseTree.mkFact "carol" 4 (Some "alice") false].

(** A database whose [users] table has used the largest id. *)
Definition full_db : Db.db :=
  Db.mkDb (Db.users Db.alice_stored) INT64_MAX ∅ 0.

End Calls.

(** * Properties *)

(** ** Strings *)

Module PyFacts.
Import Py.

Lemma drop_prefix_app (p r : string) : drop_prefix p (p +:+ r) = Some r.
Proof.
  induction p as [|a p IH]; simpl; [reflexivity|].
  rewrite Ascii.eqb_refl. exact IH.
Qed.

Lemma startswith_app (p r : string) : startswith p (p +:+ r) = true.
Proof.
  unfold startswith. induction p as [|a p IH]; simpl.
  - destruct r; reflexivity.
  - destruct (ascii_dec a a); [exact IH | congruence].
Qed.

Lemma span_digits_uint (d : Decimal.uint) (rest : string) :
  span is_digit (NilEmpty.string_of_uint d +:+ String ")" rest)
  = (NilEmpty.string_of_uint d, String ")" rest).
Proof.
  induction d; simpl; try reflexivity;
    change (is_digit _) with true; cbv iota; rewrite IHd; reflexivity.
Qed.

Lemma str_of_N_nonempty (k : N) : exists c s, str_of_N k = String c s.
Proof.
  unfold str_of_N. destruct k as [|p]; simpl.
  - eexists _, _. reflexivity.
  - pose proof (DecimalPos.Unsigned.to_uint_nonnil p) as H.
    destruct (Pos.to_uint p); try congruence; simpl; eexists _, _; reflexivity.
Qed.

Lemma int_str_of_N (k : N) : int (str_of_N k) = Z.of_N k.
Proof.
  unfold int, str_of_N. rewrite NilEmpty.usu.
  rewrite DecimalN.Unsigned.of_to. reflexivity.
Qed.

End PyFacts.

(** ** The tree reconstructor *)

Module TreeFacts.
Import Dom ParseTree ParseTreeSpec.

Lemma fold_left_ext_in {A B : Type} (f g : A -> B -> A) (l : list B) :
  (forall x, In x l -> forall a, f a x = g a x) ->
  forall a, fold_left f l a = fold_left g l a.
Proof.
  induction l as [|x l IH]; intros H a; simpl; [reflexivity|].
  rewrite (H x (or_introl eq_refl)). apply IH.
  intros y Hy. apply H. right. exact Hy.
Qed.

Lemma height_le_fold (c : node) (cs : list node) :
  In c cs ->
  (height c <= fold_right (fun c acc => Nat.max (height c) acc) O cs)%nat.
Proof.
  induction cs as [|d cs IH]; simpl; [tauto|].
  intros [->|H]; [lia|]. specialize (IH H). lia.
Qed.

Lemma height_child (n c : node) :
  In c (children n) -> (height c < height n)%nat.
Proof.
  destruct n as [nm a cl cs| |]; simpl; try tauto.
  intros H. apply height_le_fold in H. lia.
Qed.

Lemma parse_li_S (fuel : nat) (li : node) (parent : option string)
    (users : list user_fact) :
  parse_li (S fuel) li parent users =
  match find_link li with
  | None => users
  | Some link =>
      match find_child (is_tag_with_class "ul" "user_tree") li with
      | Some nested_ul =>
          parse_each fuel (Some (link_username link))
            (find_all_children (is_tag "li") nested_ul)
            (users ++ [fact_of_entry li link parent])
      | None => users ++ [fact_of_entry li link parent]
      end
  end.
Proof. reflexivity. Qed.

Lemma find_link_leaf (li : node) : height li = O -> find_link li = None.
Proof. destruct li; simpl; [discriminate| |]; reflexivity. Qed.

Lemma find_child_in (p : node -> bool) (n c : node) :
  find_child p n = Some c -> In c (children n).
Proof. intros H. apply find_some in H. tauto. Qed.

Lemma find_all_children_in (p : node -> bool) (n c : node) :
  In c (find_all_children p n) -> In c (children n).
Proof. intros H. apply filter_In in H. tauto. Qed.

(** Fuel beyond the height of the entry changes nothing. *)
Lemma parse_li_fuel_S (fuel : nat) :
  forall li parent users,
    (height li <= fuel)%nat ->
    parse_li (S fuel) li parent users = parse_li fuel li parent users.
Proof.
  induction fuel as [|fuel IH]; intros li parent users Hh.
  - rewrite parse_li_S, find_link_leaf by lia. reflexivity.
  - rewrite (parse_li_S (S fuel)), (parse_li_S fuel).
    destruct (find_link li) as [link|]; [|reflexivity].
    destruct (find_child _ li) as [ul|] eqn:Hul; [|reflexivity].
    apply fold_left_ext_in. intros c Hc a.
    apply IH.
    apply find_child_in, height_child in Hul.
    apply find_all_children_in, height_child in Hc. lia.
Qed.

Lemma parse_li_fuel_ge (li : node) (parent : option string)
    (users : list user_fact) (fuel : nat) :
  (height li <= fuel)%nat ->
  parse_li fuel li parent users = parse_li (height li) li parent users.
Proof.
  induction 1 as [|fuel Hle IH]; [reflexivity|].
  rewrite parse_li_fuel_S by exact Hle. exact IH.
Qed.

Lemma parse_li_fuel_irrelevant (li : node) (parent : option string)
    (users : list user_fact) (f1 f2 : nat) :
  (height li <= f1)%nat -> (height li <= f2)%nat ->
  parse_li f1 li parent users = parse_li f2 li parent users.
Proof.
  intros H1 H2.
  rewrite (parse_li_fuel_ge li parent users f1 H1).
  rewrite (parse_li_fuel_ge li parent users f2 H2). reflexivity.
Qed.

Lemma parse_each_fuel_irrelevant (lis : list node) (parent : option string)
    (f1 f2 : nat) :
  (forall li, In li lis -> (height li <= f1)%nat /\ (height li <= f2)%nat) ->
  forall users, parse_each f1 parent lis users = parse_each f2 parent lis users.
Proof.
  intros H. apply fold_left_ext_in. intros li Hli a.
  destruct (H li Hli). apply parse_li_fuel_irrelevant; assumption.
Qed.


(** *** Documents in the documented format *)

Lemma append_empty_r (s : string) : s +:+ "" = s.
Proof. induction s as [|c s IH]; simpl; [reflexivity | now rewrite IH]. Qed.

Lemma append_assoc (a b c : string) : (a +:+ b) +:+ c = a +:+ b +:+ c.
Proof. induction a as [|x a IH]; simpl; [reflexivity | now rewrite IH]. Qed.

Lemma render_link_href (u : string) (inactive : bool) :
  is_user_link (render_link u inactive) = true.
Proof.
  unfold render_link, is_user_link, attrs_of.
  change (list_to_map [("name", u); ("href", "/~" +:+ u)])
    with (<["name" := u]> (<["href" := "/~" +:+ u]> (∅ : gmap string string))).
  rewrite lookup_insert_ne by discriminate.
  rewrite lookup_insert_eq. rewrite PyFacts.startswith_app. reflexivity.
Qed.

Lemma render_link_username (u : string) (inactive : bool) :
  link_username (render_link u inactive) = u.
Proof.
  unfold render_link, link_username, attrs_of.
  change (list_to_map [("name", u); ("href", "/~" +:+ u)])
    with (<["name" := u]> (<["href" := "/~" +:+ u]> (∅ : gmap string string))).
  rewrite lookup_insert_eq.
  destruct u as [|c u]; [|reflexivity].
  rewrite lookup_insert_ne by discriminate.
  rewrite lookup_insert_eq. reflexivity.
Qed.

Lemma find_link_render_li (t : utree) :
  find_link (render_li t)
  = Some (render_link (match t with UNode u _ _ _ => u end)
                      (match t with UNode _ _ i _ => i end)).
Proof.
  destruct t as [u k i invited].
  unfold find_link, find_child. cbn [render_li children app List.find].
  rewrite render_link_href. reflexivity.
Qed.

Lemma karma_search_here (u text ds : string) :
  karma_match_here u text = Some ds -> karma_search u text = Some ds.
Proof. intros H. destruct text; simpl; rewrite H; reflexivity. Qed.

Lemma karma_search_rendered (u : string) (k : N) (rest : string) :
  karma_search u (u +:+ " (" +:+ Py.str_of_N k +:+ ")" +:+ rest)
  = Some (Py.str_of_N k).
Proof.
  apply karma_search_here. unfold karma_match_here.
  rewrite PyFacts.drop_prefix_app.
  change (snd (Py.span Py.is_space
                 (" (" +:+ Py.str_of_N k +:+ ")" +:+ rest)))
    with (String "(" (Py.str_of_N k +:+ String ")" rest)).
  unfold Py.str_of_N. rewrite PyFacts.span_digits_uint.
  destruct (PyFacts.str_of_N_nonempty k) as (c & s & Hs).
  unfold Py.str_of_N in Hs. rewrite Hs. reflexivity.
Qed.

Lemma get_text_render_li (t : utree) :
  exists rest,
    get_text (render_li t)
    = match t with UNode u k _ _ => u +:+ " (" +:+ Py.str_of_N k +:+ ")" +:+ rest
      end.
Proof.
  destruct t as [u k i invited].
  cbn [render_li get_text render_link fold_right app].
  rewrite append_empty_r.
  eexists. f_equal. rewrite !append_assoc. reflexivity.
Qed.

Lemma fact_of_rendered_entry (u : string) (k : N) (i : bool)
    (invited : list utree) (parent : option string) :
  fact_of_entry (render_li (UNode u k i invited)) (render_link u i) parent
  = mkFact u (Z.of_N k) parent i.
Proof.
  unfold fact_of_entry. rewrite render_link_username.
  destruct (get_text_render_li (UNode u k i invited)) as [rest ->].
  rewrite karma_search_rendered, PyFacts.int_str_of_N.
  f_equal. destruct i; reflexivity.
Qed.

Lemma filter_li_render (ts : list utree) :
  List.filter (is_tag "li") (map render_li ts) = map render_li ts.
Proof.
  induction ts as [|[u k i inv] ts IH]; simpl; [reflexivity|].
  now rewrite IH.
Qed.

Lemma udepth_in (t : utree) (ts : list utree) :
  In t ts -> (udepth t <= udepth_forest ts)%nat.
Proof.
  unfold udepth_forest.
  induction ts as [|d ts IH]; simpl; [tauto|].
  intros [->|H]; [lia|]. specialize (IH H). lia.
Qed.

Lemma parse_each_render_with (fuel : nat) (parent : option string)
    (ts : list utree) :
  (forall t, In t ts -> forall p us,
     parse_li fuel (render_li t) p us = us ++ facts_of p t) ->
  forall acc,
    parse_each fuel parent (map render_li ts) acc
    = acc ++ flat_map (facts_of parent) ts.
Proof.
  unfold parse_each.
  induction ts as [|t ts IHts]; intros H acc; simpl.
  - now rewrite app_nil_r.
  - rewrite H by now left.
    rewrite IHts by (intros t' Ht'; apply H; now right).
    now rewrite <- app_assoc.
Qed.

(** An entry of the documented format yields its own fact, then those of the
    users it invited. *)
Lemma parse_li_render (fuel : nat) :
  forall t parent users,
    (udepth t <= fuel)%nat ->
    parse_li fuel (render_li t) parent users = users ++ facts_of parent t.
Proof.
  induction fuel as [|fuel IH]; intros [u k i invited] parent users Hd.
  - simpl in Hd. lia.
  - rewrite parse_li_S, find_link_render_li, fact_of_rendered_entry.
    assert (Hinv : forall t, In t invited -> (udepth t <= fuel)%nat).
    { intros t Ht. apply udepth_in in Ht. simpl in Hd.
      unfold udepth_forest in Ht. lia. }
    clear Hd. cbn [facts_of]. destruct invited as [|t0 ts].
    + reflexivity.
    + change (find_child (is_tag_with_class "ul" "user_tree")
                (render_li (UNode u k i (t0 :: ts))))
        with (Some (Tag "ul" (attrs_of []) ["user_tree"]
                      (map render_li (t0 :: ts)))).
      unfold find_all_children. cbn [children].
      rewrite filter_li_render.
      rewrite parse_each_render_with.
      * rewrite render_link_username. now rewrite <- app_assoc.
      * intros t Ht p us. apply IH, Hinv, Ht.
Qed.

Lemma parse_each_render (fuel : nat) (parent : option string)
    (ts : list utree) (acc : list user_fact) :
  (udepth_forest ts <= fuel)%nat ->
  parse_each fuel parent (map render_li ts) acc
  = acc ++ flat_map (facts_of parent) ts.
Proof.
  intros H. apply parse_each_render_with.
  intros t Ht p us. apply parse_li_render.
  apply udepth_in in Ht. lia.
Qed.

Lemma parse_users_tree_main (attrs : gmap string string)
    (classes : list string) (cs rest : list node) :
  has_class "user_tree" classes = true ->
  parse_users_tree (Tag "ul" attrs classes cs :: rest)
  = parse_each (height (Tag "ul" attrs classes cs)) None
      (List.filter (is_tag "li") cs) [].
Proof.
  intros H. unfold parse_users_tree.
  cbn [descendants_of flat_map app List.find is_tag_with_class].
  rewrite H. reflexivity.
Qed.

Lemma height_filter_li (n : node) (li : node) :
  In li (List.filter (is_tag "li") (children n)) ->
  (height li <= height n)%nat.
Proof.
  intros H. apply filter_In in H. destruct H as [H _].
  apply height_child in H. lia.
Qed.

Lemma parse_users_tree_render (roots : list utree) :
  parse_users_tree (render_tree roots) = forest_facts roots.
Proof.
  unfold render_tree. rewrite parse_users_tree_main by reflexivity.
  set (main := Tag "ul" (attrs_of []) ["user_tree"] (map render_li roots)).
  rewrite (parse_each_fuel_irrelevant _ None (height main)
             (height main + udepth_forest roots)).
  - rewrite filter_li_render, parse_each_render by lia. reflexivity.
  - intros li Hli. apply (height_filter_li main) in Hli. lia.
Qed.

(** *** The accumulator *)

Lemma parse_li_no_link (fuel : nat) (li : node) (parent : option string)
    (users : list user_fact) :
  find_link li = None -> parse_li fuel li parent users = users.
Proof.
  intros H. destruct fuel; [reflexivity|]. rewrite parse_li_S, H. reflexivity.
Qed.

Lemma parse_each_flat_with (fuel : nat) (parent : option string)
    (lis : list node) :
  (forall li p us, parse_li fuel li p us = us ++ parse_li fuel li p []) ->
  forall acc,
    parse_each fuel parent lis acc
    = acc ++ flat_map (fun li => parse_li fuel li parent []) lis.
Proof.
  intros H. unfold parse_each.
  induction lis as [|li lis IH]; intros acc; simpl.
  - now rewrite app_nil_r.
  - rewrite IH, (H li parent acc). now rewrite <- app_assoc.
Qed.

Lemma parse_li_acc (fuel : nat) :
  forall li parent users,
    parse_li fuel li parent users = users ++ parse_li fuel li parent [].
Proof.
  induction fuel as [|fuel IH]; intros li parent users.
  - simpl. now rewrite app_nil_r.
  - rewrite !parse_li_S.
    destruct (find_link li) as [link|]; [|now rewrite app_nil_r].
    destruct (find_child _ li) as [ul|]; [|reflexivity].
    rewrite !(parse_each_flat_with fuel _ _ IH).
    now rewrite <- !app_assoc.
Qed.

Lemma parse_each_flat (fuel : nat) (parent : option string)
    (lis : list node) (acc : list user_fact) :
  parse_each fuel parent lis acc
  = acc ++ flat_map (fun li => parse_li fuel li parent []) lis.
Proof. apply parse_each_flat_with, parse_li_acc. Qed.

(** *** Entries without a user link *)

Lemma parse_each_skip (fuel : nat) (parent : option string)
    (l1 l2 : list node) (bad : node) (users : list user_fact) :
  find_link bad = None ->
  parse_each fuel parent (l1 ++ bad :: l2) users
  = parse_each fuel parent (l1 ++ l2) users.
Proof.
  intros H. unfold parse_each. rewrite !fold_left_app. simpl.
  now rewrite parse_li_no_link.
Qed.

Lemma filter_li_skip (fuel : nat) (parent : option string)
    (l1 l2 : list node) (bad : node) (users : list user_fact) :
  find_link bad = None ->
  parse_each fuel parent (List.filter (is_tag "li") (l1 ++ bad :: l2)) users
  = parse_each fuel parent (List.filter (is_tag "li") (l1 ++ l2)) users.
Proof.
  intros H. rewrite !List.filter_app. simpl.
  destruct (is_tag "li" bad); [|reflexivity].
  now apply parse_each_skip.
Qed.

Lemma parse_users_tree_with_main (soup : list node) (main : node) :
  is_main_tree soup main ->
  parse_users_tree soup
  = parse_each (height main) None (find_all_children (is_tag "li") main) [].
Proof. unfold is_main_tree, parse_users_tree. now intros ->. Qed.

Lemma parse_main_fuel (main : node) (fuel : nat) :
  (height main <= fuel)%nat ->
  parse_each (height main) None (find_all_children (is_tag "li") main) []
  = parse_each fuel None (find_all_children (is_tag "li") main) [].
Proof.
  intros H. apply parse_each_fuel_irrelevant.
  intros li Hli. apply height_filter_li in Hli. lia.
Qed.

(** Removing a top-level entry without a user link leaves the result as it
    was. *)
Lemma parse_users_tree_drop_entry (soup1 soup2 : list node)
    (attrs : gmap string string) (classes : list string)
    (l1 l2 : list node) (bad : node) :
  is_main_tree soup1 (Tag "ul" attrs classes (l1 ++ bad :: l2)) ->
  is_main_tree soup2 (Tag "ul" attrs classes (l1 ++ l2)) ->
  find_link bad = None ->
  parse_users_tree soup1 = parse_users_tree soup2.
Proof.
  intros H1 H2 Hbad.
  rewrite (parse_users_tree_with_main _ _ H1).
  rewrite (parse_users_tree_with_main _ _ H2).
  set (m1 := Tag "ul" attrs classes (l1 ++ bad :: l2)).
  set (m2 := Tag "ul" attrs classes (l1 ++ l2)).
  rewrite (parse_main_fuel m1 (height m1 + height m2)) by lia.
  rewrite (parse_main_fuel m2 (height m1 + height m2)) by lia.
  unfold find_all_children, m1, m2. cbn [children].
  now apply filter_li_skip.
Qed.

(** An entry has no user link exactly when no element below it is one. *)
Lemma find_link_none (li : node) :
  find_link li = None <->
  (forall d, In d (descendants li) -> is_user_link d = false).
Proof.
  unfold find_link, find_child, find_desc. split.
  - intros H d Hd.
    destruct (List.find is_user_link (children li)); [discriminate|].
    apply (find_none _ _ H d Hd).
  - intros H.
    assert (Hd : List.find is_user_link (descendants li) = None).
    { destruct (List.find is_user_link (descendants li)) as [d|] eqn:E;
        [|reflexivity].
      apply find_some in E. destruct E as [E1 E2].
      rewrite (H d E1) in E2. discriminate. }
    destruct (List.find is_user_link (children li)) as [c|] eqn:E;
      [|exact Hd].
    apply find_some in E. destruct E as [E1 E2].
    assert (Hc : In c (descendants li)).
    { destruct li as [nm a cl cs| |]; simpl in *; try tauto.
      apply in_flat_map. exists c. split; [exact E1 | now left]. }
    rewrite (H c Hc) in E2. discriminate.
Qed.

(** *** Parents precede children *)

Lemma ordered_from_mono (l : list user_fact) :
  forall seen seen',
    (forall p, In p seen -> In p seen') ->
    ordered_from seen l -> ordered_from seen' l.
Proof.
  induction l as [|f l IH]; intros seen seen' Hsub; simpl; [tauto|].
  intros [Hf Hl]. split.
  - intros p Hp. apply Hsub, Hf, Hp.
  - apply (IH (username f :: seen)); [|exact Hl].
    intros p [->|Hp]; [now left | right; apply Hsub, Hp].
Qed.

Lemma ordered_from_app (a b : list user_fact) :
  forall seen,
    ordered_from seen a -> ordered_from seen b -> ordered_from seen (a ++ b).
Proof.
  induction a as [|f a IH]; intros seen Ha Hb; simpl; [exact Hb|].
  destruct Ha as [Hf Ha]. split; [exact Hf|].
  apply IH; [exact Ha|].
  apply (ordered_from_mono b seen); [|exact Hb].
  intros p Hp. now right.
Qed.

Lemma ordered_from_flat_map {A : Type} (g : A -> list user_fact)
    (l : list A) (seen : list string) :
  (forall x, In x l -> ordered_from seen (g x)) ->
  ordered_from seen (flat_map g l).
Proof.
  induction l as [|x l IH]; intros H; simpl; [exact I|].
  apply ordered_from_app; [apply H; now left|].
  apply IH. intros y Hy. apply H. now right.
Qed.

Lemma parse_li_ordered (fuel : nat) :
  forall li parent seen,
    (forall p, parent = Some p -> In p seen) ->
    ordered_from seen (parse_li fuel li parent []).
Proof.
  induction fuel as [|fuel IH]; intros li parent seen Hp; [exact I|].
  rewrite parse_li_S.
  destruct (find_link li) as [link|]; [|exact I].
  destruct (find_child _ li) as [ul|].
  - rewrite parse_each_flat. simpl. split; [exact Hp|].
    apply ordered_from_flat_map. intros c _. apply IH.
    intros p [= <-]. now left.
  - simpl. split; [exact Hp | exact I].
Qed.

Lemma parse_users_tree_ordered (soup : list node) :
  ordered_from [] (parse_users_tree soup).
Proof.
  unfold parse_users_tree.
  destruct (List.find _ (descendants_of soup)) as [main|]; [|exact I].
  fold (parse_each (height main) None
          (find_all_children (is_tag "li") main) []).
  rewrite parse_each_flat. simpl.
  apply ordered_from_flat_map. intros c _. apply parse_li_ordered.
  discriminate.
Qed.

Lemma ordered_from_split (before after : list user_fact) (f : user_fact)
    (p : string) :
  forall seen,
    ordered_from seen (before ++ f :: after) ->
    invited_by_username f = Some p ->
    In p seen \/ exists g, In g before /\ username g = p.
Proof.
  induction before as [|x before IH]; intros seen H Hp; simpl in H.
  - left. now apply (proj1 H).
  - destruct (IH _ (proj2 H) Hp) as [[<-|Hs]|(g & Hg & Hu)].
    + right. exists x. split; [now left | reflexivity].
    + now left.
    + right. exists g. split; [now right | exact Hu].
Qed.

(** *** The entries the traversal visits *)

Lemma find_link_height (li link : node) :
  find_link li = Some link -> exists k, height li = S k.
Proof.
  intros H. destruct (height li) as [|k] eqn:E; [|now exists k].
  rewrite (find_link_leaf li E) in H. discriminate.
Qed.

Lemma parse_li_own_fact (fuel : nat) (li link : node)
    (parent : option string) (users : list user_fact) :
  find_link li = Some link ->
  exists rest,
    parse_li (S fuel) li parent users
    = users ++ fact_of_entry li link parent :: rest.
Proof.
  intros H. rewrite parse_li_S, H.
  destruct (find_child _ li) as [ul|]; [|now exists []].
  rewrite parse_each_flat, <- app_assoc. simpl. eexists. reflexivity.
Qed.

Lemma parse_li_nested_in (fuel : nat) (e link ul li : node)
    (p : option string) (x : user_fact) :
  find_link e = Some link ->
  find_child (is_tag_with_class "ul" "user_tree") e = Some ul ->
  In li (find_all_children (is_tag "li") ul) ->
  In x (parse_li fuel li (Some (link_username link)) []) ->
  In x (parse_li (S fuel) e p []).
Proof.
  intros Hl Hul Hli Hx. rewrite parse_li_S, Hl, Hul, parse_each_flat.
  apply in_or_app. right. apply in_flat_map. exists li.
  split; assumption.
Qed.

Lemma visits_output (main li : node) (parent : option string) :
  visits main li parent ->
  forall x,
    In x (parse_li (height li) li parent []) ->
    In x (parse_each (height main) None
            (find_all_children (is_tag "li") main) []).
Proof.
  induction 1 as [li Hli | e p link ul li He IH Hl Hul Hli]; intros x Hx.
  - rewrite parse_each_flat. simpl. apply in_flat_map. exists li.
    split; [exact Hli|].
    rewrite (parse_li_fuel_ge li None [] (height main));
      [exact Hx | now apply height_filter_li].
  - apply IH.
    destruct (find_link_height e link Hl) as [k Hk]. rewrite Hk.
    apply (parse_li_nested_in k e link ul li p x Hl Hul Hli).
    rewrite (parse_li_fuel_ge li _ [] k); [exact Hx|].
    apply find_child_in, height_child in Hul.
    apply find_all_children_in, height_child in Hli. lia.
Qed.

(** Every visited entry with a user link has its fact in the result. *)
Lemma visited_entry_is_output (soup : list node) (main li link : node)
    (parent : option string) :
  is_main_tree soup main ->
  visits main li parent ->
  find_link li = Some link ->
  In (fact_of_entry li link parent) (parse_users_tree soup).
Proof.
  intros Hm Hv Hl. rewrite (parse_users_tree_with_main _ _ Hm).
  apply (visits_output main li parent Hv).
  destruct (find_link_height li link Hl) as [k Hk]. rewrite Hk.
  destruct (parse_li_own_fact k li link parent [] Hl) as [rest ->].
  now left.
Qed.

Lemma parse_li_from_visited (main : node) (fuel : nat) :
  forall li parent x,
    visits main li parent ->
    In x (parse_li fuel li parent []) ->
    exists li' link' parent',
      visits main li' parent'
      /\ find_link li' = Some link'
      /\ x = fact_of_entry li' link' parent'.
Proof.
  induction fuel as [|fuel IH]; intros li parent x Hv Hx; [destruct Hx|].
  rewrite parse_li_S in Hx.
  destruct (find_link li) as [link|] eqn:Hl; [|destruct Hx].
  destruct (find_child _ li) as [ul|] eqn:Hul.
  - rewrite parse_each_flat in Hx. simpl in Hx. destruct Hx as [<-|Hx].
    + exists li, link, parent. auto.
    + apply in_flat_map in Hx. destruct Hx as (c & Hc & Hx).
      apply (IH c (Some (link_username link)) x); [|exact Hx].
      eapply visits_nested; eassumption.
  - simpl in Hx. destruct Hx as [<-|[]]. exists li, link, parent. auto.
Qed.

(** Every fact of the result is the fact of a visited entry with a user
    link. *)
Lemma output_is_visited (soup : list node) (main : node) (x : user_fact) :
  is_main_tree soup main ->
  In x (parse_users_tree soup) ->
  exists li link parent,
    visits main li parent
    /\ find_link li = Some link
    /\ x = fact_of_entry li link parent.
Proof.
  intros Hm Hx.
  rewrite (parse_users_tree_with_main _ _ Hm), parse_each_flat in Hx.
  simpl in Hx. apply in_flat_map in Hx. destruct Hx as (li & Hli & Hx).
  apply (parse_li_from_visited main (height main) li None x);
    [now apply visits_top | exact Hx].
Qed.

Lemma descendants_trans_height (k : nat) :
  forall n c d,
    (height n <= k)%nat ->
    In c (descendants n) -> In d (descendants c) -> In d (descendants n).
Proof.
  induction k as [|k IH]; intros n c d Hh Hc Hd.
  - destruct n; simpl in *; [lia | destruct Hc..].
  - destruct n as [nm a cl cs| |]; try destruct Hc.
    cbn [descendants] in *. apply in_flat_map in Hc.
    destruct Hc as (ch & Hch & [<-|Hc]).
    + apply in_flat_map. exists ch. split; [exact Hch | now right].
    + apply in_flat_map. exists ch. split; [exact Hch|]. right.
      apply (IH ch c d); [|exact Hc|exact Hd].
      pose proof (height_child (Tag nm a cl cs) ch Hch). lia.
Qed.

Lemma find_link_in_descendants (li link : node) :
  find_link li = Some link -> In link (descendants li).
Proof.
  unfold find_link, find_child, find_desc. intros H.
  destruct (List.find is_user_link (children li)) as [c|] eqn:E.
  - injection H as <-. apply find_some in E. destruct E as [E _].
    destruct li as [nm a cl cs| |]; simpl in *; try tauto.
    apply in_flat_map. exists c. split; [exact E | now left].
  - apply find_some in H. tauto.
Qed.

(** Below an entry without a user link no entry has one. *)
Lemma find_link_none_below (bad c : node) :
  find_link bad = None -> In c (descendants bad) -> find_link c = None.
Proof.
  intros H Hc. apply find_link_none. intros d Hd.
  apply (proj1 (find_link_none bad) H).
  now apply (descendants_trans_height (height bad) bad c d).
Qed.

(** *** The claims about the tree reconstructor *)

(** C2 (amended).  For every document in the format the module documents
    (each entry an anchor with [name="u"] and [href="/~u"], the text
    [" (karma)"], and the invitees in a nested [ul.user_tree]), the result
    lists every entry once, in document pre-order, with the username of the
    nearest enclosing entry as inviter ([None] at the top level); the
    two-node example written with its [href] attributes yields the two
    facts of the specification. *)
Theorem documented_tree_yields_preorder_facts :
  (forall roots : list utree,
     parse_users_tree (render_tree roots) = forest_facts roots)
  /\ parse_users_tree documented_example = example_facts.
Proof.
  split; [exact parse_users_tree_render|].
  vm_compute. reflexivity.
Qed.

(** C2, as stated, fails: on the example as the specification writes it,
    with anchors that have a [name] and no [href], no entry has a user
    link and the result is empty. *)
Lemma spec_example_yields_no_fact :
  parse_users_tree spec_example = []
  /\ parse_users_tree spec_example <> example_facts.
Proof. split; vm_compute; [reflexivity | discriminate]. Qed.

(** C8.  An entry without a user link is skipped: [parse_li] returns with
    the list untouched, at any nesting level and under any inviter.  The
    loop over a list of entries that holds it, the top-level list or a
    nested one, yields the facts of the entries before it followed by those
    of the entries after it, as it does without it.  Wherever such entries
    sit in the document, every entry the traversal visits that has a user
    link has its fact in the result; in particular every sibling of the
    skipped entry that has a user link, in the main tree or in the nested
    list of a visited entry, has its fact in the result, with the inviter
    of that list.  A document whose main tree holds such an entry parses to
    the same facts as the document without it. *)
Theorem entry_without_username_is_skipped
    (soup : list node) (main bad : node) :
  is_main_tree soup main ->
  find_link bad = None ->
  (forall fuel parent users, parse_li fuel bad parent users = users)
  /\ (forall fuel parent before after users,
        parse_each fuel parent (before ++ bad :: after) users
        = parse_each fuel parent (before ++ after) users
        /\ parse_each fuel parent (before ++ bad :: after) users
           = users
             ++ flat_map (fun li => parse_li fuel li parent []) before
             ++ flat_map (fun li => parse_li fuel li parent []) after)
  /\ (forall li link parent,
        visits main li parent ->
        find_link li = Some link ->
        In (fact_of_entry li link parent) (parse_users_tree soup))
  /\ (forall before after sib slink,
        find_all_children (is_tag "li") main = before ++ bad :: after ->
        In sib (before ++ after) ->
        find_link sib = Some slink ->
        In (fact_of_entry sib slink None) (parse_users_tree soup))
  /\ (forall e p link ul before after sib slink,
        visits main e p ->
        find_link e = Some link ->
        find_child (is_tag_with_class "ul" "user_tree") e = Some ul ->
        find_all_children (is_tag "li") ul = before ++ bad :: after ->
        In sib (before ++ after) ->
        find_link sib = Some slink ->
        In (fact_of_entry sib slink (Some (link_username link)))
           (parse_users_tree soup))
  /\ (forall attrs classes l1 l2 soup2,
        main = Tag "ul" attrs classes (l1 ++ bad :: l2) ->
        is_main_tree soup2 (Tag "ul" attrs classes (l1 ++ l2)) ->
        parse_users_tree soup = parse_users_tree soup2).
Proof.
  intros Hm Hbad.
  assert (Hsib : forall (before after : list node) (sib : node),
             In sib (before ++ after) -> In sib (before ++ bad :: after)).
  { intros before after sib H. apply in_app_or in H. apply in_or_app.
    destruct H; [now left | right; now right]. }
  split; [intros; now apply parse_li_no_link|].
  split.
  { intros fuel parent before after users.
    rewrite (parse_each_skip _ _ _ _ _ _ Hbad). split; [reflexivity|].
    rewrite parse_each_flat, flat_map_app. reflexivity. }
  split; [intros li link parent; now apply visited_entry_is_output|].
  split.
  { intros before after sib slink Hl Hin Hs.
    apply (visited_entry_is_output soup main sib slink None Hm);
      [|exact Hs].
    apply visits_top. rewrite Hl. now apply Hsib. }
  split.
  { intros e p link ul before after sib slink Hv He Hul Hl Hin Hs.
    apply (visited_entry_is_output soup main sib slink _ Hm); [|exact Hs].
    apply (visits_nested main e p link ul sib Hv He Hul).
    rewrite Hl. now apply Hsib. }
  intros attrs classes l1 l2 soup2 -> H2.
  exact (parse_users_tree_drop_entry _ _ _ _ _ _ _ Hm H2 Hbad).
Qed.

Lemma entry_without_username_is_skipped_witness :
  find_link noise_entry = None
  /\ In (mkFact "carol" 4 (Some "alice") false)
        (parse_users_tree nested_noise_tree)
  /\ parse_users_tree noisy_tree = parse_users_tree clean_tree.
Proof.
  split; [reflexivity|]. split.
  - destruct (entry_without_username_is_skipped
                nested_noise_tree nested_noise_main noise_entry
                eq_refl eq_refl)
      as (_ & _ & _ & _ & H & _).
    apply (H alice_entry None (render_link "alice" false) alice_list
             [] [carol_entry] carol_entry (render_link "carol" false)).
    + apply visits_top. left. reflexivity.
    + reflexivity.
    + reflexivity.
    + reflexivity.
    + left. reflexivity.
    + reflexivity.
  - destruct (entry_without_username_is_skipped
                noisy_tree
                (Tag "ul" (attrs_of []) ["user_tree"]
                   ([render_li (UNode "alice" 10 false [])]
                    ++ noise_entry :: [render_li (UNode "bob" 2 true [])]))
                noise_entry eq_refl eq_refl)
      as (_ & _ & _ & _ & _ & H).
    apply (H (attrs_of []) ["user_tree"]
             [render_li (UNode "alice" 10 false [])]
             [render_li (UNode "bob" 2 true [])] clean_tree);
      reflexivity.
Defined.

(** C9.  In the result, a fact with an inviter comes after a fact whose
    username is that inviter. *)
Theorem parents_precede_children (soup : list node)
    (before after : list user_fact) (f : user_fact) (p : string) :
  parse_users_tree soup = before ++ f :: after ->
  invited_by_username f = Some p ->
  exists g, In g before /\ username g = p.
Proof.
  intros Hout Hp.
  pose proof (parse_users_tree_ordered soup) as Hord. rewrite Hout in Hord.
  destruct (ordered_from_split _ _ _ _ _ Hord Hp) as [[]|H]. exact H.
Qed.

Lemma parents_precede_children_witness :
  exists g, In g [mkFact "root" 100 None false] /\ username g = "root".
Proof.
  apply (parents_precede_children documented_example
           [mkFact "root" 100 None false] []
           (mkFact "child" 5 (Some "root") false) "root");
    vm_compute; reflexivity.
Defined.

(** C10 (amended).  An entry has no user link exactly when no element
    below it, at any depth, is an anchor whose [href] begins with "/~".
    Such an entry contributes no fact, neither its own nor one from its
    nested lists: no entry below it has a user link, and every fact of the
    result is the fact of a visited entry that is neither this entry nor
    below it, under the username of a user link inside that entry.  An
    entry that has no such anchor as a direct child while one sits deeper
    inside it, for instance in a well-formed nested entry, is not skipped:
    the first such anchor in document order is taken as its user link, the
    entry is recorded under the username of that anchor, and its nested
    list is parsed with that username as inviter, so the nested entries
    with a user link are in the result. *)
Theorem subtree_of_entry_without_username_is_skipped
    (soup : list node) (main bad : node) :
  is_main_tree soup main ->
  (find_link bad = None <->
   (forall d, In d (descendants bad) -> is_user_link d = false))
  /\ (find_link bad = None ->
      (forall fuel parent users, parse_li fuel bad parent users = users)
      /\ (forall c, In c (descendants bad) -> find_link c = None)
      /\ (forall x,
            In x (parse_users_tree soup) ->
            exists li link parent,
              visits main li parent
              /\ find_link li = Some link
              /\ In link (descendants li)
              /\ x = fact_of_entry li link parent
              /\ username x = link_username link
              /\ li <> bad
              /\ ~ In li (descendants bad))
      /\ (forall attrs classes l1 l2 soup2,
            main = Tag "ul" attrs classes (l1 ++ bad :: l2) ->
            is_main_tree soup2 (Tag "ul" attrs classes (l1 ++ l2)) ->
            forall x, In x (map username (parse_users_tree soup)) ->
                      In x (map username (parse_users_tree soup2))))
  /\ (forall link,
        find_child is_user_link bad = None ->
        find_desc is_user_link bad = Some link ->
        find_link bad = Some link
        /\ (forall fuel parent users,
              parse_li (S fuel) bad parent users
              = match find_child (is_tag_with_class "ul" "user_tree") bad
                with
                | Some ul =>
                    parse_each fuel (Some (link_username link))
                      (find_all_children (is_tag "li") ul)
                      (users ++ [fact_of_entry bad link parent])
                | None => users ++ [fact_of_entry bad link parent]
                end)
        /\ (forall parent,
              visits main bad parent ->
              In (fact_of_entry bad link parent) (parse_users_tree soup)
              /\ (forall ul c clink,
                    find_child (is_tag_with_class "ul" "user_tree") bad
                    = Some ul ->
                    In c (find_all_children (is_tag "li") ul) ->
                    find_link c = Some clink ->
                    In (fact_of_entry c clink (Some (link_username link)))
                       (parse_users_tree soup)))).
Proof.
  intros Hm. split; [apply find_link_none|]. split.
  - intros Hbad.
    split; [intros; now apply parse_li_no_link|].
    split; [intros c; now apply find_link_none_below|].
    split.
    + intros x Hx.
      destruct (output_is_visited soup main x Hm Hx)
        as (li & link & parent & Hv & Hl & ->).
      exists li, link, parent.
      split; [exact Hv|]. split; [exact Hl|].
      split; [now apply find_link_in_descendants|].
      split; [reflexivity|]. split; [reflexivity|]. split.
      * intros ->. rewrite Hbad in Hl. discriminate.
      * intros Hin. rewrite (find_link_none_below bad li Hbad Hin) in Hl.
        discriminate.
    + intros attrs classes l1 l2 soup2 -> H2 x.
      now rewrite (parse_users_tree_drop_entry _ _ _ _ _ _ _ Hm H2 Hbad).
  - intros link Hc Hd.
    assert (Hl : find_link bad = Some link)
      by (unfold find_link; now rewrite Hc).
    split; [exact Hl|]. split.
    + intros fuel parent users. now rewrite parse_li_S, Hl.
    + intros parent Hv.
      split; [now apply (visited_entry_is_output soup main bad link)|].
      intros ul c clink Hul Hin Hcl.
      apply (visited_entry_is_output soup main c clink _ Hm); [|exact Hcl].
      now apply (visits_nested main bad parent link ul c).
Qed.

Lemma subtree_of_entry_without_username_is_skipped_witness :
  find_child is_user_link ghost_entry = None
  /\ In (mkFact "ghost" 3 (Some "ghost") false)
        (parse_users_tree ghost_tree).
Proof.
  split; [reflexivity|].
  destruct (subtree_of_entry_without_username_is_skipped
              ghost_tree ghost_main ghost_entry eq_refl)
    as (_ & _ & H).
  destruct (H (render_link "ghost" false) eq_refl eq_refl)
    as (_ & _ & H').
  destruct (H' None) as (_ & H'').
  - apply visits_top. right. left. reflexivity.
  - apply (H'' ghost_list ghost_child (render_link "ghost" false));
      [reflexivity | left; reflexivity | reflexivity].
Defined.

(** C10, as stated, fails: the entry has no anchor of its own, the username
    "ghost" appears only inside its nested list, and the result holds it
    twice, once for the entry itself and once for the nested entry. *)
Lemma nested_anchor_names_its_entry :
  find_child (is_tag "a") ghost_entry = None
  /\ find_child is_user_link ghost_entry = None
  /\ parse_users_tree ghost_tree
     = [mkFact "alice" 10 None false;
        mkFact "ghost" 3 None false;
        mkFact "ghost" 3 (Some "ghost") false].
Proof. repeat split; vm_compute; reflexivity. Qed.

End TreeFacts.

(** ** The record store *)

Module DbFacts.
Import Db.

Lemma coalesce_assoc {A : Type} (x y z : option A) :
  coalesce x (coalesce y z) = coalesce (coalesce x y) z.
Proof. destruct x; reflexivity. Qed.

Lemma coalesce_idem_l {A : Type} (x y : option A) :
  coalesce x (coalesce x y) = coalesce x y.
Proof. destruct x; reflexivity. Qed.

Lemma coalesce_self {A : Type} (x : option A) : coalesce x x = x.
Proof. destruct x; reflexivity. Qed.

Lemma user_do_update_assoc (a b r : user_row) :
  user_do_update a (user_do_update b r)
  = user_do_update (user_do_update a b) r.
Proof.
  unfold user_do_update; simpl. f_equal; apply coalesce_assoc.
Qed.

Lemma user_do_update_idem (a r : user_row) :
  user_do_update a (user_do_update a r) = user_do_update a r.
Proof.
  unfold user_do_update; simpl. f_equal; apply coalesce_idem_l.
Qed.

Lemma user_do_update_self (r : user_row) : user_do_update r r = r.
Proof.
  destruct r; unfold user_do_update; simpl. f_equal; apply coalesce_self.
Qed.

Lemma lookup_upsert_user_row (e : user_row) (s : db) (k : string) :
  users (upsert_user_row e s) !! k
  = if decide (username e = k)
    then Some (match users s !! k with
               | Some r => user_do_update e r
               | None => e
               end)
    else users s !! k.
Proof.
  unfold upsert_user_row; simpl. rewrite lookup_insert.
  destruct (decide (username e = k)) as [<-|]; reflexivity.
Qed.

(** Two proposed rows with the same values in the data columns update a
    stored row alike. *)
Lemma user_do_update_cols (i i' : Z) (u u' : string) (k : option Z)
    (a c inv g t w sc : option string) (r : user_row) :
  user_do_update (mkUser i u k a c inv g t w sc) r
  = user_do_update (mkUser i' u' k a c inv g t w sc) r.
Proof. reflexivity. Qed.

Lemma lookup_upsert_user (u : string) (k : option Z)
    (a c inv g t w sc : option string) (s : db) (x : string) :
  users (upsert_user u k a c inv g t w sc s) !! x
  = if decide (u = x)
    then Some (match users s !! x with
               | Some r => user_do_update (mkUser 0 u k a c inv g t w sc) r
               | None => mkUser (next_id id (users s) (users_seq s))
                                u k a c inv g t w sc
               end)
    else users s !! x.
Proof.
  unfold upsert_user. rewrite lookup_upsert_user_row. reflexivity.
Qed.

Lemma upsert_user_twice (u : string) (k : option Z)
    (a c inv g t w sc : option string) (s : db) :
  users (upsert_user u k a c inv g t w sc
           (upsert_user u k a c inv g t w sc s))
  = users (upsert_user u k a c inv g t w sc s).
Proof.
  apply map_eq. intros x.
  rewrite (lookup_upsert_user u k a c inv g t w sc (upsert_user _ _ _ _ _ _ _ _ _ s)).
  destruct (decide (u = x)) as [<-|Hne]; [|reflexivity].
  rewrite lookup_upsert_user.
  destruct (decide (u = u)) as [_|]; [|congruence].
  f_equal.
  destruct (users s !! u) as [r|].
  - apply user_do_update_idem.
  - set (i := next_id id (users s) (users_seq s)).
    rewrite (user_do_update_cols 0 i u u).
    apply user_do_update_self.
Qed.

(** *** Ingesting a list of facts *)

Import Ingest.

Lemma ingest_cons (f : ParseTree.user_fact) (l : list ParseTree.user_fact)
    (s : db) :
  ingest (f :: l) s
  = ingest l (upsert_user (ParseTree.username f) (Some (ParseTree.karma f))
                None None (ParseTree.invited_by_username f)
                None None None None s).
Proof. reflexivity. Qed.

Lemma apply_facts_cons (k : string) (f : ParseTree.user_fact)
    (l : list ParseTree.user_fact) (r : user_row) :
  apply_facts k (f :: l) r
  = apply_facts k l (if decide (ParseTree.username f = k)
                     then user_do_update (fact_row 0 f) r else r).
Proof. reflexivity. Qed.

Lemma lookup_ingest_step (f : ParseTree.user_fact) (s : db) (x : string) :
  users (upsert_user (ParseTree.username f) (Some (ParseTree.karma f))
           None None (ParseTree.invited_by_username f)
           None None None None s) !! x
  = if decide (ParseTree.username f = x)
    then Some (match users s !! x with
               | Some r => user_do_update (fact_row 0 f) r
               | None => fact_row (next_id id (users s) (users_seq s)) f
               end)
    else users s !! x.
Proof. rewrite lookup_upsert_user. reflexivity. Qed.

Lemma fact_row_absorb (i : Z) (f : ParseTree.user_fact) :
  user_do_update (fact_row 0 f) (fact_row i f) = fact_row i f.
Proof.
  unfold fact_row, user_do_update; simpl. f_equal; apply coalesce_self.
Qed.

Lemma lookup_ingest_existing (l : list ParseTree.user_fact) :
  forall s x r,
    users s !! x = Some r ->
    users (ingest l s) !! x = Some (apply_facts x l r).
Proof.
  induction l as [|f l IH]; intros s x r H; [exact H|].
  rewrite ingest_cons, apply_facts_cons.
  apply IH. rewrite lookup_ingest_step, H.
  destruct (decide (ParseTree.username f = x)); reflexivity.
Qed.

Lemma lookup_ingest_untouched (l : list ParseTree.user_fact) :
  forall s x,
    (forall f, In f l -> ParseTree.username f <> x) ->
    users (ingest l s) !! x = users s !! x.
Proof.
  induction l as [|f l IH]; intros s x H; [reflexivity|].
  rewrite ingest_cons, IH by (intros g Hg; apply H; now right).
  rewrite lookup_ingest_step.
  destruct (decide (ParseTree.username f = x)) as [E|]; [|reflexivity].
  exfalso. apply (H f); [now left | exact E].
Qed.

Lemma lookup_ingest_fresh (l : list ParseTree.user_fact) :
  forall s x,
    users s !! x = None ->
    (forall f, In f l -> ParseTree.username f <> x)
    \/ exists r, users (ingest l s) !! x = Some (apply_facts x l r).
Proof.
  induction l as [|f l IH]; intros s x H; [left; intros f []|].
  rewrite ingest_cons.
  destruct (decide (ParseTree.username f = x)) as [E|Hne].
  - right.
    exists (fact_row (next_id id (users s) (users_seq s)) f).
    rewrite apply_facts_cons.
    destruct (decide (ParseTree.username f = x)); [|congruence].
    rewrite fact_row_absorb.
    apply lookup_ingest_existing.
    rewrite lookup_ingest_step, H.
    destruct (decide (ParseTree.username f = x)); [reflexivity|congruence].
  - destruct (IH (upsert_user (ParseTree.username f)
                    (Some (ParseTree.karma f)) None None
                    (ParseTree.invited_by_username f)
                    None None None None s) x) as [Hl|[r Hr]].
    + rewrite lookup_ingest_step, H.
      destruct (decide (ParseTree.username f = x)); [congruence|reflexivity].
    + left. intros g [<-|Hg]; [exact Hne | now apply Hl].
    + right. exists r. rewrite Hr, apply_facts_cons.
      destruct (decide (ParseTree.username f = x)); [congruence|reflexivity].
Qed.

(** The facts about one username act as the identity or as one update. *)
Lemma apply_facts_form (x : string) (l : list ParseTree.user_fact) :
  (forall r, apply_facts x l r = r)
  \/ exists n, forall r, apply_facts x l r = user_do_update n r.
Proof.
  induction l as [|f l IH].
  - left. reflexivity.
  - destruct (decide (ParseTree.username f = x)) as [E|Hne].
    + right. destruct IH as [Hid|[n Hn]].
      * exists (fact_row 0 f). intros r. rewrite apply_facts_cons, Hid.
        destruct (decide (ParseTree.username f = x)); [reflexivity|congruence].
      * exists (user_do_update n (fact_row 0 f)). intros r.
        rewrite apply_facts_cons, Hn.
        destruct (decide (ParseTree.username f = x)); [|congruence].
        apply user_do_update_assoc.
    + destruct IH as [Hid|[n Hn]]; [left|right; exists n]; intros r;
        rewrite apply_facts_cons;
        (destruct (decide (ParseTree.username f = x)); [congruence|]);
        auto.
Qed.

Lemma apply_facts_idem (x : string) (l : list ParseTree.user_fact)
    (r : user_row) :
  apply_facts x l (apply_facts x l r) = apply_facts x l r.
Proof.
  destruct (apply_facts_form x l) as [Hid|[n Hn]].
  - now rewrite !Hid.
  - rewrite !Hn. apply user_do_update_idem.
Qed.

Lemma ingest_twice (l : list ParseTree.user_fact) (s : db) :
  users (ingest l (ingest l s)) = users (ingest l s).
Proof.
  apply map_eq. intros x.
  assert (Hshape :
    (users (ingest l s) !! x = users s !! x
     /\ forall f, In f l -> ParseTree.username f <> x)
    \/ exists r, users (ingest l s) !! x = Some (apply_facts x l r)).
  { destruct (users s !! x) as [r|] eqn:E0.
    - right. exists r. now apply lookup_ingest_existing.
    - destruct (lookup_ingest_fresh l s x E0) as [Hl|Hr]; [left|now right].
      split; [|exact Hl]. rewrite <- E0. now apply lookup_ingest_untouched. }
  destruct Hshape as [[_ Hl]|[r Hr]].
  - now apply lookup_ingest_untouched.
  - rewrite (lookup_ingest_existing l _ x _ Hr), Hr.
    now rewrite apply_facts_idem.
Qed.

(** *** The claims about the user store *)

(** C1 (amended).  An upsert of a user that has a stored row sets each
    field to the value it provides when that value is not null, and keeps
    the stored value when it provides null: the latest non-null value
    wins.  The id and the username of the row stay. *)
Theorem upsert_user_latest_non_null_wins (u : string) (k : option Z)
    (a c inv g t w sc : option string) (s : db) (r : user_row) :
  users s !! u = Some r ->
  users (upsert_user u k a c inv g t w sc s) !! u
  = Some (mkUser (id r) (username r)
            (coalesce k (karma r)) (coalesce a (about r))
            (coalesce c (created_at r))
            (coalesce inv (invited_by_username r))
            (coalesce g (github_username r))
            (coalesce t (twitter_username r))
            (coalesce w (website r)) (coalesce sc (scraped_at r))).
Proof.
  intros H. rewrite lookup_upsert_user, H.
  destruct (decide (u = u)); [reflexivity|congruence].
Qed.

Lemma upsert_user_latest_non_null_wins_witness :
  users alice_again !! "alice"
  = Some (mkUser 1 "alice" (Some 5) None None (Some "root")
                 None None None None).
Proof.
  apply (upsert_user_latest_non_null_wins "alice" (Some 5) None None None
           None None None None alice_stored
           (mkUser 1 "alice" (Some 100) None None (Some "root")
                   None None None None)).
  vm_compute. reflexivity.
Defined.

(** C1, as stated, fails: the stored karma 100 of a user is replaced by the
    karma 5 of a later upsert. *)
Lemma stored_karma_is_overwritten :
  karma <$> (users alice_stored !! "alice") = Some (Some 100)
  /\ karma <$> (users alice_again !! "alice") = Some (Some 5).
Proof. split; vm_compute; reflexivity. Qed.

(** C7.  The same upsert applied twice leaves the users table as one
    application does; so does ingesting the same list of facts twice, in
    particular the list reconstructed from a document. *)
Theorem upsert_user_idempotent :
  (forall (u : string) (k : option Z) (a c inv g t w sc : option string)
          (s : db),
     users (upsert_user u k a c inv g t w sc
              (upsert_user u k a c inv g t w sc s))
     = users (upsert_user u k a c inv g t w sc s))
  /\ (forall (facts : list ParseTree.user_fact) (s : db),
        users (ingest facts (ingest facts s)) = users (ingest facts s))
  /\ (forall (soup : list Dom.node) (s : db),
        users (ingest (ParseTree.parse_users_tree soup)
                 (ingest (ParseTree.parse_users_tree soup) s))
        = users (ingest (ParseTree.parse_users_tree soup) s)).
Proof.
  split; [|split].
  - intros. apply upsert_user_twice.
  - intros. apply ingest_twice.
  - intros. apply ingest_twice.
Qed.

End DbFacts.

(** ** The enrichment store *)

Module EnrichStoreFacts.
Import Enrich.

(** C6.  Saving an enrichment for a username that has a stored row leaves
    a row whose eleven data columns are the values of the new record; of
    the previous row only the id and the username, the conflict key,
    stay. *)
Theorem save_enrichment_overwrites (e : enrichment string) (s : Db.db)
    (old : Db.enrichment_row) :
  Db.enrichment s !! username e = Some old ->
  Db.enrichment (save_enrichment e s) !! username e
  = Some (Db.mkEnrichment (Db.e_id old) (Db.e_username old)
            (full_name e) (linkedin_url e) (github_url e) (twitter_url e)
            (company e) (title e) (location e) (bio e)
            (Some (other_urls e)) (Some (raw_response e))
            (Some (enriched_at e))).
Proof.
  intros H. unfold save_enrichment. cbn [Db.enrichment].
  rewrite lookup_insert_eq, H. reflexivity.
Qed.

Lemma save_enrichment_overwrites_witness :
  Db.enrichment (save_enrichment second_enrichment enriched_once)
    !! "alice"
  = Some (Db.mkEnrichment 1 "alice" None None
            (Some "https://github.com/alice") None
            None None None None (Some "[]") (Some "raw2") (Some "t2")).
Proof.
  apply (save_enrichment_overwrites second_enrichment enriched_once
           (Db.mkEnrichment 1 "alice" (Some "Alice A")
              (Some "https://linkedin.com/in/alice") None None
              None None None None (Some "[]") (Some "raw1") (Some "t1"))).
  vm_compute. reflexivity.
Defined.

End EnrichStoreFacts.

(** ** The enrichment merger *)

Module EnrichFacts.
Import Enrich.

(** C4 (amended).  For a user whose only signal is a GitHub username, the
    query is ["github.com/<username>"] alone: the single term contains
    "github", so no qualifier is appended.  For "alice" the query is
    exactly "github.com/alice". *)
Theorem github_only_query_has_no_qualifier :
  (forall (i : Z) (u : string) (k : option Z)
          (a c inv sc : option string),
     build_search_query
       (Db.mkUser i u k a c inv (Some "alice") None None sc)
     = Some "github.com/alice")
  /\ (forall (i : Z) (u : string) (k : option Z)
             (a c inv sc : option string) (x : ascii) (g : string),
        build_search_query
          (Db.mkUser i u k a c inv (Some (String x g)) None None sc)
        = Some ("github.com/" +:+ String x g)).
Proof.
  split; intros; reflexivity.
Qed.

(** C4, as stated, fails: the query of the github-only user "alice" carries
    no qualifier. *)
Lemma github_only_query_counterexample :
  build_search_query
    (Db.mkUser 1 "alice" None None None None (Some "alice") None None None)
  <> Some "github.com/alice software engineer developer".
Proof. vm_compute. discriminate. Qed.

Lemma merge_result_keeps_other_urls (e : enrichment (list string))
    (r : search_result) (x : string) :
  In x (other_urls e) -> In x (other_urls (merge_result e r)).
Proof.
  intros H. unfold merge_result.
  repeat match goal with
         | |- context [if ?b then _ else _] => destruct b
         end; simpl; try exact H.
  apply in_or_app. now left.
Qed.

Lemma merge_results_keeps_other_urls (results : list search_result) :
  forall (e : enrichment (list string)) (x : string),
    In x (other_urls e) -> In x (other_urls (merge_results results e)).
Proof.
  induction results as [|r results IH]; intros e x H; [exact H|].
  simpl. apply IH. now apply merge_result_keeps_other_urls.
Qed.

Lemma mem_In (x : string) (l : list string) : mem x l = true -> In x l.
Proof.
  unfold mem. intros H. apply existsb_exists in H.
  destruct H as (y & Hy & E). apply String.eqb_eq in E. now subst.
Qed.

(** C3, as stated, fails: the second LinkedIn candidate ends in
    [other_urls]. *)
Lemma later_linkedin_candidate_is_not_dropped :
  other_urls (merge_results [linkedin_first; linkedin_second]
                (blank "alice" "raw" "now"))
  = ["https://www.linkedin.com/in/alice-b"]
  /\ linkedin_url (merge_results [linkedin_first; linkedin_second]
                     (blank "alice" "raw" "now"))
     = Some "https://www.linkedin.com/in/alice-a".
Proof. split; vm_compute; reflexivity. Qed.

End EnrichFacts.

(** ** The profile link classifier *)

Module ScrapeFacts.
Import Scrape.

(** C5.  On a page with two GitHub links and two Twitter/X links the
    usernames of the later links are kept, whatever the dictionary held
    before; the website is the first candidate. *)
Theorem later_profile_link_overwrites (username : string) :
  extract_links two_links_page (fresh_profile username)
  = mkProfile username None None None None
              (Some "bob") (Some "bob_t") (Some "https://alice.example").
Proof. vm_compute. reflexivity. Qed.

End ScrapeFacts.

(** ** The store: inserts, invariants, ingestion and queries *)

Module StoreFacts.
Import Db Queries Ingest IngestSpec Calls.

Lemma foldr_max_ge_init {R : Type} (rowid : R -> Z)
    (l : list (string * R)) (seq : Z) :
  seq <= foldr (uncurry (fun (_ : string) r acc => Z.max (rowid r) acc)) seq l.
Proof. induction l as [|[k r] l IH]; simpl; lia. Qed.

Lemma foldr_max_ge_elem {R : Type} (rowid : R -> Z)
    (l : list (string * R)) (seq : Z) (k : string) (r : R) :
  (k, r) ∈ l ->
  rowid r <= foldr (uncurry (fun (_ : string) r acc => Z.max (rowid r) acc))
               seq l.
Proof.
  induction l as [|[k' r'] l IH]; intros H.
  - inversion H.
  - apply elem_of_cons in H. destruct H as [[= <- <-]|H]; simpl.
    + lia.
    + specialize (IH H). lia.
Qed.

Lemma next_id_gt_seq {R : Type} (rowid : R -> Z) (t : gmap string R)
    (seq : Z) : seq < next_id rowid t seq.
Proof.
  unfold next_id. rewrite map_fold_foldr.
  pose proof (foldr_max_ge_init rowid (map_to_list t) seq). lia.
Qed.

Lemma next_id_gt_row {R : Type} (rowid : R -> Z) (t : gmap string R)
    (seq : Z) (k : string) (r : R) :
  t !! k = Some r -> rowid r < next_id rowid t seq.
Proof.
  intros H. unfold next_id. rewrite map_fold_foldr.
  apply elem_of_map_to_list in H.
  pose proof (foldr_max_ge_elem rowid _ seq k r H). lia.
Qed.

Lemma foldr_max_le {R : Type} (rowid : R -> Z)
    (l : list (string * R)) (seq bound : Z) :
  seq <= bound ->
  (forall k r, (k, r) ∈ l -> rowid r <= bound) ->
  foldr (uncurry (fun (_ : string) r acc => Z.max (rowid r) acc)) seq l
  <= bound.
Proof.
  intros Hs. induction l as [|[k r] l IH]; intros H; simpl; [exact Hs|].
  assert (rowid r <= bound) by (apply (H k), elem_of_cons; now left).
  assert (foldr (uncurry (fun (_ : string) r acc => Z.max (rowid r) acc))
            seq l <= bound).
  { apply IH. intros k' r' H'. apply (H k'), elem_of_cons. now right. }
  lia.
Qed.

(** Every statement uses up one id, on a conflict too. *)
Lemma next_id_upsert (u : string) (k : option Z)
    (a c inv g t w sc : option string) (s : db) :
  next_id id (users (upsert_user u k a c inv g t w sc s))
          (users_seq (upsert_user u k a c inv g t w sc s))
  = 1 + next_id id (users s) (users_seq s).
Proof.
  set (n := next_id id (users s) (users_seq s)).
  assert (Hseq : users_seq (upsert_user u k a c inv g t w sc s) = n)
    by reflexivity.
  unfold next_id at 1. rewrite map_fold_foldr, Hseq. f_equal.
  apply Z.le_antisymm.
  - apply foldr_max_le; [lia|]. intros x r Hx.
    apply elem_of_map_to_list in Hx.
    rewrite DbFacts.lookup_upsert_user in Hx.
    destruct (decide (u = x)) as [<-|_].
    + destruct (users s !! u) as [r0|] eqn:E; injection Hx as <-; simpl.
      * pose proof (next_id_gt_row id _ (users_seq s) u r0 E). fold n in H.
        lia.
      * fold n. lia.
    + pose proof (next_id_gt_row id _ (users_seq s) x r Hx). fold n in H.
      lia.
  - apply foldr_max_ge_init.
Qed.

Lemma room_for_step (n : nat) (s : db) :
  room_for (S n) s ->
  has_room s = true
  /\ room_for n s
  /\ (forall u k a c inv g t w sc,
        room_for n (upsert_user u k a c inv g t w sc s)).
Proof.
  unfold room_for, has_room. intros H. repeat split.
  - apply Z.leb_le. lia.
  - lia.
  - intros. rewrite next_id_upsert. lia.
Qed.

Lemma upsert_user_call_returns (u : string) (k : option Z)
    (a c inv g t w sc : option string) (s : db) :
  binds k = true ->
  has_room s = true ->
  upsert_user_call u k a c inv g t w sc s
  = Returned (upsert_user u k a c inv g t w sc s).
Proof. intros Hk Hr. unfold upsert_user_call. now rewrite Hk, Hr. Qed.

Lemma upsert_user_call_raises (u : string) (k : option Z)
    (a c inv g t w sc : option string) (s : db) :
  binds k = false \/ has_room s = false ->
  upsert_user_call u k a c inv g t w sc s = Raised s.
Proof.
  intros [H|H]; unfold upsert_user_call; rewrite H;
    [reflexivity | now rewrite andb_false_r].
Qed.

Lemma run_each_app {A : Type} (body : db -> A -> run) (l1 l2 : list A) :
  forall s,
    run_each body (l1 ++ l2) s
    = match run_each body l1 s with
      | Returned s' => run_each body l2 s'
      | Raised s' => Raised s'
      end.
Proof.
  induction l1 as [|x l1 IH]; intros s; simpl; [reflexivity|].
  destruct (body s x); [apply IH | reflexivity].
Qed.

(** X1.  A call of [upsert_user] for a username that is not stored, with a
    karma that fits 64 bits (or none) and an id left to draw, returns and
    inserts a row with exactly the values given, under an id that is at
    most [2^63 - 1] and greater than the stored counter and than every
    stored id; the table grows by one row.  With a karma outside 64 bits,
    or with no id left, the call raises and the database is as before. *)
Theorem upsert_user_inserts_new_user (u : string) (k : option Z)
    (a c inv g t w sc : option string) (s : db) :
  users s !! u = None ->
  (binds k = true ->
   has_room s = true ->
   exists s',
     upsert_user_call u k a c inv g t w sc s = Returned s'
     /\ get_user u s'
        = Some (mkUser (next_id id (users s) (users_seq s))
                       u k a c inv g t w sc)
     /\ users_seq s < next_id id (users s) (users_seq s) <= INT64_MAX
     /\ (forall x r, users s !! x = Some r ->
                     id r < next_id id (users s) (users_seq s))
     /\ size (users s') = S (size (users s)))
  /\ (binds k = false \/ has_room s = false ->
      upsert_user_call u k a c inv g t w sc s = Raised s
      /\ get_user u (state_of (upsert_user_call u k a c inv g t w sc s))
         = None).
Proof.
  intros H. split.
  - intros Hk Hr. exists (upsert_user u k a c inv g t w sc s).
    split; [now apply upsert_user_call_returns|]. repeat split.
    + unfold get_user. rewrite DbFacts.lookup_upsert_user, H.
      destruct (decide (u = u)); [reflexivity|congruence].
    + apply next_id_gt_seq.
    + now apply Z.leb_le.
    + intros x r Hx. exact (next_id_gt_row id _ _ x r Hx).
    + unfold upsert_user, upsert_user_row. cbn [users username].
      now apply map_size_insert_None.
  - intros Hf. rewrite upsert_user_call_raises by exact Hf.
    split; [reflexivity | exact H].
Qed.

Lemma upsert_user_inserts_new_user_witness :
  (exists s',
     upsert_user_call "bob" (Some 7) None None (Some "alice")
                      None None None None alice_again = Returned s'
     /\ get_user "bob" s'
        = Some (mkUser 3 "bob" (Some 7) None None (Some "alice")
                       None None None None))
  /\ upsert_user_call "bob" (Some (2 ^ 63)) None None (Some "alice")
                      None None None None alice_again
     = Raised alice_again
  /\ upsert_user_call "bob" (Some 7) None None (Some "alice")
                      None None None None full_db
     = Raised full_db.
Proof.
  split; [|split].
  - destruct (proj1 (upsert_user_inserts_new_user "bob" (Some 7) None None
                       (Some "alice") None None None None alice_again
                       eq_refl) eq_refl eq_refl)
      as (s' & Hs & Hg & _).
    exists s'. split; [exact Hs | exact Hg].
  - apply (proj2 (upsert_user_inserts_new_user "bob" (Some (2 ^ 63)) None
                    None (Some "alice") None None None None alice_again
                    eq_refl)).
    left. reflexivity.
  - apply (proj2 (upsert_user_inserts_new_user "bob" (Some 7) None
                    None (Some "alice") None None None None full_db
                    eq_refl)).
    right. reflexivity.
Defined.

(** X2.  An upsert touches one row only: the rows of the other usernames
    and the enrichment table stay as they are, and no username leaves the
    table. *)
Theorem upsert_user_touches_one_row (u : string) (k : option Z)
    (a c inv g t w sc : option string) (s : db) :
  (forall x, x <> u ->
     get_user x (upsert_user u k a c inv g t w sc s) = get_user x s)
  /\ enrichment (upsert_user u k a c inv g t w sc s) = enrichment s
  /\ enrichment_seq (upsert_user u k a c inv g t w sc s) = enrichment_seq s
  /\ dom (users (upsert_user u k a c inv g t w sc s))
     = {[u]} ∪ dom (users s).
Proof.
  repeat split.
  - intros x Hx. unfold get_user. rewrite DbFacts.lookup_upsert_user.
    destruct (decide (u = x)); [congruence|reflexivity].
  - unfold upsert_user, upsert_user_row. cbn [users username].
    apply dom_insert_L.
Qed.

Lemma upsert_user_touches_one_row_witness :
  get_user "alice"
    (upsert_user "bob" (Some 7) None None (Some "alice") None None None None
                 alice_stored)
  = get_user "alice" alice_stored.
Proof.
  apply (proj1 (upsert_user_touches_one_row "bob" (Some 7) None None
                  (Some "alice") None None None None alice_stored) "alice").
  discriminate.
Defined.

Lemma store_ok_empty : store_ok empty_db.
Proof.
  split.
  - intros k r H. cbn in H. rewrite lookup_empty in H. discriminate.
  - intros k1 k2 r1 r2 H. cbn in H. rewrite lookup_empty in H. discriminate.
Qed.

Lemma store_ok_upsert (u : string) (k : option Z)
    (a c inv g t w sc : option string) (s : db) :
  store_ok s -> store_ok (upsert_user u k a c inv g t w sc s).
Proof.
  intros [Hkey Hid].
  assert (Hrow : forall x r,
            users (upsert_user u k a c inv g t w sc s) !! x = Some r ->
            username r = x
            /\ ((exists r0, users s !! x = Some r0 /\ id r = id r0)
                \/ (x = u /\ users s !! u = None
                    /\ id r = next_id id (users s) (users_seq s)))).
  { intros x r. rewrite DbFacts.lookup_upsert_user.
    destruct (decide (u = x)) as [<-|Hne].
    - destruct (users s !! u) as [r0|] eqn:E; intros [= <-].
      + split; [exact (Hkey u r0 E)|]. left. now exists r0.
      + split; [reflexivity|]. right. repeat split.
    - intros H. split; [exact (Hkey x r H)|]. left. now exists r. }
  split.
  - intros x r H. exact (proj1 (Hrow x r H)).
  - intros k1 k2 r1 r2 H1 H2 E.
    destruct (Hrow k1 r1 H1) as [_ [(q1 & L1 & I1)|(-> & N1 & I1)]];
      destruct (Hrow k2 r2 H2) as [_ [(q2 & L2 & I2)|(-> & N2 & I2)]].
    + apply (Hid k1 k2 q1 q2 L1 L2). congruence.
    + pose proof (next_id_gt_row id _ (users_seq s) k1 q1 L1). lia.
    + pose proof (next_id_gt_row id _ (users_seq s) k2 q2 L2). lia.
    + reflexivity.
Qed.

Lemma store_ok_ingest (l : list ParseTree.user_fact) :
  forall s, store_ok s -> store_ok (ingest l s).
Proof.
  induction l as [|f l IH]; intros s H; [exact H|].
  rewrite DbFacts.ingest_cons. apply IH. now apply store_ok_upsert.
Qed.

(** X3.  Upserts keep the table well formed: every row stays under its own
    username and no id is used twice, after one upsert and after the
    ingestion of any list of facts. *)
Theorem upserts_keep_store_ok (s : db) :
  store_ok s ->
  (forall (u : string) (k : option Z) (a c inv g t w sc : option string),
     store_ok (upsert_user u k a c inv g t w sc s))
  /\ (forall facts, store_ok (ingest facts s)).
Proof.
  intros H. split.
  - intros. now apply store_ok_upsert.
  - intros. now apply store_ok_ingest.
Qed.

Lemma upserts_keep_store_ok_witness :
  store_ok (ingest ParseTree.example_facts empty_db).
Proof.
  apply (upserts_keep_store_ok empty_db store_ok_empty).
Defined.

(** *** What ingestion leaves for a username *)

Lemma ingest_snoc (l : list ParseTree.user_fact) (f : ParseTree.user_fact)
    (s : db) :
  ingest (l ++ [f]) s
  = upsert_user (ParseTree.username f) (Some (ParseTree.karma f)) None None
      (ParseTree.invited_by_username f) None None None None (ingest l s).
Proof. unfold ingest. now rewrite fold_left_app. Qed.

Lemma last_fact_snoc (x : string) (l : list ParseTree.user_fact)
    (f : ParseTree.user_fact) :
  last_fact x (l ++ [f])
  = if decide (ParseTree.username f = x) then Some f else last_fact x l.
Proof. unfold last_fact. now rewrite fold_left_app. Qed.

Lemma last_inviter_snoc (x : string) (l : list ParseTree.user_fact)
    (f : ParseTree.user_fact) (init : option string) :
  last_inviter x (l ++ [f]) init
  = if decide (ParseTree.username f = x)
    then coalesce (ParseTree.invited_by_username f) (last_inviter x l init)
    else last_inviter x l init.
Proof. unfold last_inviter. now rewrite fold_left_app. Qed.

Lemma coalesce_None_r {A : Type} (x : option A) : coalesce x None = x.
Proof. now destruct x. Qed.

Lemma karma_after_ingest (l : list ParseTree.user_fact) (s : db)
    (x : string) :
  forall f, last_fact x l = Some f ->
  users (ingest l s) !! x ≫= karma = Some (ParseTree.karma f).
Proof.
  induction l as [|g l IH] using rev_ind; intros f H; [discriminate|].
  rewrite last_fact_snoc in H.
  rewrite ingest_snoc, DbFacts.lookup_ingest_step.
  destruct (decide (ParseTree.username g = x)) as [E|Hne].
  - injection H as <-. now destruct (users (ingest l s) !! x).
  - now apply IH.
Qed.

Lemma inviter_after_ingest (l : list ParseTree.user_fact) (s : db)
    (x : string) :
  users (ingest l s) !! x ≫= invited_by_username
  = last_inviter x l (users s !! x ≫= invited_by_username).
Proof.
  induction l as [|g l IH] using rev_ind; [reflexivity|].
  rewrite last_inviter_snoc, ingest_snoc, DbFacts.lookup_ingest_step.
  destruct (decide (ParseTree.username g = x)) as [E|Hne]; [|exact IH].
  rewrite <- IH.
  destruct (users (ingest l s) !! x); simpl; [reflexivity|].
  now rewrite coalesce_None_r.
Qed.

Lemma ingest_run_returns (l : list ParseTree.user_fact) :
  forall s,
    Forall (fun g => binds (Some (ParseTree.karma g)) = true) l ->
    room_for (length l) s ->
    ingest_run l s = Returned (ingest l s).
Proof.
  induction l as [|g l IH]; intros s Hb Hr; [reflexivity|].
  inversion Hb as [|? ? Hg Hl]; subst.
  destruct (room_for_step _ _ Hr) as (Hroom & _ & Hnext).
  unfold ingest_run. simpl.
  rewrite upsert_user_call_returns by assumption.
  apply IH; [exact Hl | apply Hnext].
Qed.

Lemma ingest_run_raises (pre post : list ParseTree.user_fact)
    (g : ParseTree.user_fact) (s : db) :
  Forall (fun h => binds (Some (ParseTree.karma h)) = true) pre ->
  room_for (length pre) s ->
  binds (Some (ParseTree.karma g)) = false ->
  ingest_run (pre ++ g :: post) s = Raised (ingest pre s).
Proof.
  intros Hb Hr Hg. unfold ingest_run. rewrite run_each_app.
  fold (ingest_run pre s). rewrite (ingest_run_returns pre s Hb Hr).
  simpl. rewrite upsert_user_call_raises by now left. reflexivity.
Qed.

(** X4.  When the karma of every fact fits 64 bits and the table has ids
    left for the list, the ingestion loop returns, and the row of a
    username the list mentions holds the karma of the last fact about it,
    and as inviter the last inviter a fact about it names (the inviter
    stored before, when none names one).  At the first fact whose karma
    does not fit 64 bits the loop is left by the exception: the facts
    before it are stored, and a username that none of them mentions has
    the row it had before, or none. *)
Theorem ingest_last_fact_wins (l : list ParseTree.user_fact) (s : db)
    (x : string) (f : ParseTree.user_fact) :
  last_fact x l = Some f ->
  (Forall (fun g => binds (Some (ParseTree.karma g)) = true) l ->
   room_for (length l) s ->
   exists s',
     ingest_run l s = Returned s'
     /\ exists r,
          users s' !! x = Some r
          /\ karma r = Some (ParseTree.karma f)
          /\ invited_by_username r
             = last_inviter x l (users s !! x ≫= invited_by_username))
  /\ (forall pre g post,
        l = pre ++ g :: post ->
        Forall (fun h => binds (Some (ParseTree.karma h)) = true) pre ->
        room_for (length pre) s ->
        binds (Some (ParseTree.karma g)) = false ->
        exists s',
          ingest_run l s = Raised s'
          /\ s' = ingest pre s
          /\ (forall y,
                (forall h, In h pre -> ParseTree.username h <> y) ->
                users s' !! y = users s !! y)).
Proof.
  intros H. split.
  - intros Hb Hr. exists (ingest l s).
    split; [now apply ingest_run_returns|].
    pose proof (karma_after_ingest l s x f H) as Hk.
    pose proof (inviter_after_ingest l s x) as Hi.
    destruct (users (ingest l s) !! x) as [r|]; [|discriminate].
    simpl in Hk, Hi. exists r. repeat split; [exact Hk | exact Hi].
  - intros pre g post -> Hb Hr Hg. exists (ingest pre s).
    split; [now apply ingest_run_raises|]. split; [reflexivity|].
    intros y Hy. now apply DbFacts.lookup_ingest_untouched.
Qed.

Lemma ingest_last_fact_wins_witness :
  (exists s',
     ingest_run duplicate_facts empty_db = Returned s'
     /\ exists r,
          users s' !! "carol" = Some r
          /\ karma r = Some 9
          /\ invited_by_username r = Some "alice")
  /\ (exists s',
        ingest_run overflowing_facts empty_db = Raised s'
        /\ users s' !! "carol" = None).
Proof.
  split.
  - apply (proj1 (ingest_last_fact_wins duplicate_facts empty_db "carol"
                    (ParseTree.mkFact "carol" 9 None false) eq_refl)).
    + repeat constructor.
    + vm_compute. discriminate.
  - destruct (proj2 (ingest_last_fact_wins overflowing_facts empty_db
                       "carol" (ParseTree.mkFact "carol" 4 (Some "alice")
                                  false) eq_refl)
                [ParseTree.mkFact "alice" 10 None false]
                (ParseTree.mkFact "bob" 10000000000000000000 (Some "alice")
                   false)
                [ParseTree.mkFact "carol" 4 (Some "alice") false]
                eq_refl)
      as (s' & Hs & _ & Hy).
    + repeat constructor.
    + vm_compute. discriminate.
    + reflexivity.
    + exists s'. split; [exact Hs|].
      rewrite Hy; [reflexivity|].
      intros h [<-|[]]. discriminate.
Defined.

(** *** Inviters that are stored users *)

Lemma closed_upsert_fact (f : ParseTree.user_fact) (s : db) :
  closed s ->
  (forall p, ParseTree.invited_by_username f = Some p ->
             is_Some (users s !! p)) ->
  closed (upsert_user (ParseTree.username f) (Some (ParseTree.karma f))
            None None (ParseTree.invited_by_username f)
            None None None None s).
Proof.
  intros Hc Hf.
  assert (Hmono : forall p, is_Some (users s !! p) ->
            is_Some (users (upsert_user (ParseTree.username f)
                              (Some (ParseTree.karma f)) None None
                              (ParseTree.invited_by_username f)
                              None None None None s) !! p)).
  { intros p Hp. rewrite DbFacts.lookup_ingest_step.
    destruct (decide (ParseTree.username f = p)); [eauto|exact Hp]. }
  intros x r p. rewrite DbFacts.lookup_ingest_step.
  destruct (decide (ParseTree.username f = x)) as [E|Hne].
  - destruct (users s !! x) as [r0|] eqn:E0; intros [= <-]; simpl.
    + destruct (ParseTree.invited_by_username f) as [q|] eqn:Eq; simpl.
      * intros [= <-]. now apply Hmono, Hf.
      * intros Hp. apply Hmono. exact (Hc x r0 p E0 Hp).
    + intros Hp. now apply Hmono, Hf.
  - intros Hr Hp. apply Hmono. exact (Hc x r p Hr Hp).
Qed.

Lemma closed_ingest_ordered (l : list ParseTree.user_fact) :
  forall seen s,
    ParseTree.ordered_from seen l ->
    (forall p, In p seen -> is_Some (users s !! p)) ->
    closed s -> closed (ingest l s).
Proof.
  induction l as [|f l IH]; intros seen s Ho Hseen Hc; [exact Hc|].
  destruct Ho as [Hf Ho]. rewrite DbFacts.ingest_cons.
  apply (IH (ParseTree.username f :: seen)); [exact Ho| |].
  - intros p Hp. rewrite DbFacts.lookup_ingest_step.
    destruct (decide (ParseTree.username f = p)) as [E|Hne]; [eauto|].
    destruct Hp as [Hp|Hp]; [congruence|now apply Hseen].
  - apply closed_upsert_fact; [exact Hc|].
    intros p Hp. now apply Hseen, Hf.
Qed.

Lemma closed_edges (s : db) (invitee inviter : string) :
  closed s ->
  (invitee, inviter) ∈ get_invitation_tree s ->
  is_Some (users s !! inviter).
Proof.
  intros Hc H. unfold get_invitation_tree in H.
  apply list_elem_of_omap in H. destruct H as ([k r] & Hin & Hr).
  apply elem_of_map_to_list in Hin. simpl in Hr.
  destruct (invited_by_username r) as [p|] eqn:Ep; [|discriminate].
  injection Hr as _ <-. exact (Hc k r p Hin Ep).
Qed.

(** X5.  Ingesting the facts reconstructed from a document into a store in
    which every inviter is a stored user leaves such a store: every edge of
    the invitation tree then starts at a stored user. *)
Theorem ingest_tree_keeps_inviters_stored (soup : list Dom.node) (s : db) :
  closed s ->
  closed (ingest (ParseTree.parse_users_tree soup) s)
  /\ (forall invitee inviter,
        (invitee, inviter)
          ∈ get_invitation_tree (ingest (ParseTree.parse_users_tree soup) s) ->
        is_Some (users (ingest (ParseTree.parse_users_tree soup) s)
                   !! inviter)).
Proof.
  intros Hc.
  assert (H : closed (ingest (ParseTree.parse_users_tree soup) s)).
  { apply (closed_ingest_ordered _ []); [|intros p []|exact Hc].
    apply TreeFacts.parse_users_tree_ordered. }
  split; [exact H|]. intros a b. now apply closed_edges.
Qed.

Lemma closed_empty : closed empty_db.
Proof. intros k r p H. cbn in H. rewrite lookup_empty in H. discriminate. Qed.

Lemma ingest_tree_keeps_inviters_stored_witness :
  closed (ingest (ParseTree.parse_users_tree ParseTree.documented_example)
            empty_db).
Proof.
  apply (ingest_tree_keeps_inviters_stored ParseTree.documented_example
           empty_db closed_empty).
Defined.

(** *** The statistics of the export *)

Lemma length_omap_le {A B : Type} (f : A -> option B) (l : list A) :
  (length (omap f l) <= length l)%nat.
Proof.
  induction l as [|x l IH]; simpl; [lia|].
  change (list_omap A B f l) with (omap f l).
  destruct (f x); simpl; lia.
Qed.

Lemma foldr_max_karma_ge (l : list (string * user_row)) (k : string)
    (r : user_row) (v : Z) :
  (k, r) ∈ l -> karma r = Some v ->
  exists m,
    foldr (uncurry (fun (_ : string) r acc =>
                      match karma r, acc with
                      | Some k, Some m => Some (Z.max k m)
                      | Some k, None => Some k
                      | None, _ => acc
                      end)) None l = Some m
    /\ v <= m.
Proof.
  induction l as [|[k' r'] l IH]; intros H Hv.
  - inversion H.
  - apply elem_of_cons in H. destruct H as [[= <- <-]|H]; simpl.
    + rewrite Hv. destruct (foldr _ None l); eexists;
        (split; [reflexivity | lia]).
    + destruct (IH H Hv) as (m & -> & Hm).
      destruct (karma r'); eexists; (split; [reflexivity | lia]).
Qed.

(** X6.  In the statistics of the export there are at most as many edges as
    users, and no stored karma exceeds [max_karma]. *)
Theorem export_stats_bounds (s : db) :
  (total_edges s <= total_users s)%nat
  /\ (forall k r v, users s !! k = Some r -> karma r = Some v ->
                    v <= max_karma s).
Proof.
  split.
  - unfold total_edges, total_users, get_invitation_tree.
    rewrite <- length_map_to_list. apply length_omap_le.
  - intros k r v H Hv. unfold max_karma, sql_max_karma.
    rewrite map_fold_foldr. apply elem_of_map_to_list in H.
    destruct (foldr_max_karma_ge _ k r v H Hv) as (m & -> & Hm).
    destruct (m =? 0) eqn:E; [apply Z.eqb_eq in E|]; lia.
Qed.

Lemma export_stats_bounds_witness : 100 <= max_karma alice_stored.
Proof.
  apply (proj2 (export_stats_bounds alice_stored) "alice"
           (mkUser 1 "alice" (Some 100) None None (Some "root")
                   None None None None) 100);
    vm_compute; reflexivity.
Defined.

End StoreFacts.

(** ** The enrichment merger: queries, candidates and the saved record *)

Module EnrichMoreFacts.
Import Enrich EnrichSpec.

Ltac if_is_some H :=
  match type of H with
  | (if ?b then _ else _) = None => destruct b; discriminate H
  end.

Lemma build_search_query_none_iff (user : Db.user_row) :
  build_search_query user = None <->
  Py.truthy_opt (Db.github_username user) = false
  /\ Py.truthy_opt (Db.twitter_username user) = false
  /\ Py.truthy_opt (Db.website user) = false
  /\ (String.length (default "" (Db.about user)) < 20)%nat.
Proof.
  unfold build_search_query.
  destruct (Db.github_username user) as [[|x g]|];
    destruct (Db.twitter_username user) as [[|y t]|];
    destruct (Db.website user) as [[|z w]|];
    cbn [Py.truthy Py.truthy_opt app];
    try (split; [intros H; if_is_some H
                | intros (? & ? & ? & ?); discriminate]);
    (destruct (String.length (default "" (Db.about user)) <? 20)%nat eqn:E;
     [apply Nat.ltb_lt in E | apply Nat.ltb_ge in E];
     (split; [intros H; try if_is_some H; repeat split; exact E
             | intros (_ & _ & _ & H); try reflexivity; lia])).
Qed.

(** X7.  No query is built exactly when the user has no non-empty GitHub
    username, Twitter username or website and the bio is shorter than 20
    characters. *)
Theorem no_query_iff_no_signal (user : Db.user_row) :
  build_search_query user = None <->
  Py.truthy_opt (Db.github_username user) = false
  /\ Py.truthy_opt (Db.twitter_username user) = false
  /\ Py.truthy_opt (Db.website user) = false
  /\ (String.length (default "" (Db.about user)) < 20)%nat.
Proof. exact (build_search_query_none_iff user). Qed.

Lemma no_query_iff_no_signal_witness :
  build_search_query short_bio_user = None.
Proof.
  apply (proj2 (no_query_iff_no_signal short_bio_user)).
  repeat split. vm_compute. lia.
Defined.

Lemma truthy_app_l (a b : string) :
  Py.truthy a = true -> Py.truthy (a +:+ b) = true.
Proof. destruct a; [discriminate|reflexivity]. Qed.

Lemma truthy_app_r (a b : string) :
  Py.truthy b = true -> Py.truthy (a +:+ b) = true.
Proof. destruct a; [easy|reflexivity]. Qed.

Lemma truthy_join (p : string) (rest : list string) :
  Py.truthy p = true -> Py.truthy (Py.join " " (p :: rest)) = true.
Proof.
  intros H. unfold Py.join. simpl. destruct rest; [exact H|].
  now apply truthy_app_l.
Qed.

(** X8.  A query that is built is never the empty string. *)
Theorem query_is_never_empty (user : Db.user_row) (q : string) :
  build_search_query user = Some q -> Py.truthy q = true.
Proof.
  unfold build_search_query.
  set (qual := " software engineer developer").
  assert (Hfin : forall (p : string) (rest : list string) (b : bool),
            Py.truthy p = true ->
            (if b then Some (Py.join " " (p :: rest) +:+ qual)
             else Some (Py.join " " (p :: rest))) = Some q ->
            Py.truthy q = true).
  { intros p rest b Hp H. destruct b; injection H as <-.
    - now apply truthy_app_l, truthy_join.
    - now apply truthy_join. }
  destruct (Db.github_username user) as [[|x g]|];
    destruct (Db.twitter_username user) as [[|y t]|];
    destruct (Db.website user) as [[|z w]|];
    cbn [Py.truthy Py.truthy_opt app];
    try (apply Hfin; reflexivity);
    (destruct (String.length (default "" (Db.about user)) <? 20)%nat;
     [discriminate|]; apply Hfin; apply truthy_app_r; reflexivity).
Qed.

Lemma query_is_never_empty_witness :
  Py.truthy "https://erin.example software engineer developer" = true.
Proof.
  apply (query_is_never_empty website_user). vm_compute. reflexivity.
Defined.

(** X9.  A query built for a user with a GitHub or a Twitter username is
    the gathered link terms joined by single spaces: it never carries the
    generic qualifier. *)
Theorem handle_query_has_no_qualifier (user : Db.user_row) :
  Py.truthy_opt (Db.github_username user) = true
  \/ Py.truthy_opt (Db.twitter_username user) = true ->
  build_search_query user = Some (Py.join " " (link_terms user)).
Proof.
  unfold build_search_query, link_terms.
  destruct (Db.github_username user) as [[|x g]|];
    destruct (Db.twitter_username user) as [[|y t]|];
    destruct (Db.website user) as [[|z w]|];
    cbn [Py.truthy Py.truthy_opt app default];
    intros [H|H]; try discriminate H; try reflexivity;
    cbn [length Nat.eqb andb existsb];
    match goal with
    | |- context [Py.contains "github" ?q] =>
        destruct (Py.contains "github" q);
        destruct (Py.contains "twitter" q); reflexivity
    end.
Qed.

Lemma handle_query_has_no_qualifier_witness :
  build_search_query twitter_user
  = Some "@frank_t https://frank.example".
Proof.
  apply (handle_query_has_no_qualifier twitter_user).
  right. reflexivity.
Defined.

(** X16.  A user for whom a query is built passes the filter of
    [get_users_for_enrichment] on the user's own columns. *)
Theorem query_implies_enrichable (user : Db.user_row) (q : string) :
  build_search_query user = Some q -> Queries.enrichable user = true.
Proof.
  intros H. unfold Queries.enrichable.
  destruct (Db.github_username user) as [g|] eqn:Eg;
    [rewrite (bool_decide_eq_true_2 (is_Some (Some g))) by eauto;
     now rewrite orb_true_r|].
  destruct (Db.twitter_username user) as [t|] eqn:Et;
    [rewrite (bool_decide_eq_true_2 (is_Some (Some t))) by eauto;
     now rewrite orb_true_r|].
  destruct (Db.website user) as [w|] eqn:Ew;
    [rewrite (bool_decide_eq_true_2 (is_Some (Some w))) by eauto;
     now rewrite orb_true_r|].
  assert (Hn : build_search_query user <> None) by congruence.
  rewrite build_search_query_none_iff, Eg, Et, Ew in Hn.
  destruct (Db.about user) as [[|c a]|]; simpl in *;
    try reflexivity; exfalso; apply Hn; repeat split; lia.
Qed.

Lemma query_implies_enrichable_witness :
  Queries.enrichable website_user = true.
Proof.
  apply (query_implies_enrichable website_user
           "https://erin.example software engineer developer").
  vm_compute. reflexivity.
Defined.

(** *** The merge of the candidates *)

Lemma lower_truthy (u : string) : Py.truthy (Py.lower u) = Py.truthy u.
Proof. now destruct u. Qed.

Lemma contains_truthy (p : ascii) (ps u : string) :
  Py.contains (String p ps) (Py.lower u) = true -> Py.truthy u = true.
Proof.
  rewrite <- lower_truthy. destruct (Py.lower u); [discriminate|reflexivity].
Qed.

Ltac merge_cases :=
  unfold merge_result;
  repeat match goal with
         | |- context [if ?b then _ else _] => destruct b eqn:?
         end; simpl.

Lemma merge_result_places (e : enrichment (list string))
    (r : search_result) :
  placed (merge_result e r) (url r).
Proof.
  unfold placed. merge_cases;
    repeat match goal with
           | H : _ && _ = true |- _ => apply andb_prop in H; destruct H
           | H : _ || _ = true |- _ => apply orb_prop in H; destruct H
           | H : Py.contains (String _ _) (Py.lower _) = true |- _ =>
               apply contains_truthy in H
           end;
    try (left; split; [reflexivity|assumption]);
    try (right; left; split; [reflexivity|assumption]);
    try (right; right; left; split; [reflexivity|assumption]);
    right; right; right.
  - apply in_or_app. right. now left.
  - apply EnrichFacts.mem_In.
    match goal with H : negb _ = false |- _ =>
      now apply negb_false_iff in H end.
Qed.

Lemma merge_result_keeps_truthy_fields (e : enrichment (list string))
    (r : search_result) :
  (Py.truthy_opt (linkedin_url e) = true ->
   linkedin_url (merge_result e r) = linkedin_url e)
  /\ (Py.truthy_opt (github_url e) = true ->
      github_url (merge_result e r) = github_url e)
  /\ (Py.truthy_opt (twitter_url e) = true ->
      twitter_url (merge_result e r) = twitter_url e)
  /\ (Py.truthy_opt (full_name e) = true ->
      full_name (merge_result e r) = full_name e).
Proof.
  repeat split; intros H; merge_cases; try reflexivity;
    repeat match goal with
           | H : _ && _ = true |- _ => apply andb_prop in H; destruct H
           end;
    simpl in *; rewrite H in *; discriminate.
Qed.

Lemma merge_result_keeps_placed (e : enrichment (list string))
    (r : search_result) (x : string) :
  placed e x -> placed (merge_result e r) x.
Proof.
  destruct (merge_result_keeps_truthy_fields e r) as (Hl & Hg & Ht & _).
  intros [[H T]|[[H T]|[[H T]|H]]].
  - left. split; [|exact T]. rewrite Hl; [exact H|]. now rewrite H.
  - right; left. split; [|exact T]. rewrite Hg; [exact H|]. now rewrite H.
  - right; right; left. split; [|exact T].
    rewrite Ht; [exact H|]. now rewrite H.
  - right; right; right. now apply EnrichFacts.merge_result_keeps_other_urls.
Qed.

Lemma merge_results_keeps_placed (results : list search_result) :
  forall e x, placed e x -> placed (merge_results results e) x.
Proof.
  induction results as [|r results IH]; intros e x H; [exact H|].
  simpl. apply IH. now apply merge_result_keeps_placed.
Qed.

(** X10.  The merge drops no candidate: when the loop ends, the URL of
    every candidate is the value of [linkedin_url], [github_url] or
    [twitter_url], or is in [other_urls]. *)
Theorem no_candidate_is_dropped (results : list search_result)
    (e : enrichment (list string)) (r : search_result) :
  In r results -> placed (merge_results results e) (url r).
Proof.
  revert e. induction results as [|r0 results IH]; intros e H; [destruct H|].
  simpl. destruct H as [->|H].
  - apply merge_results_keeps_placed, merge_result_places.
  - now apply IH.
Qed.

Lemma no_candidate_is_dropped_witness :
  placed (merge_results sample_results (blank "alice" "raw" "now"))
         "https://alice.example".
Proof.
  apply (no_candidate_is_dropped sample_results (blank "alice" "raw" "now")
           (mkResult "https://alice.example" None)).
  simpl. tauto.
Defined.

Lemma NoDup_snoc (l : list string) (x : string) :
  List.NoDup l -> ~ In x l -> List.NoDup (l ++ [x]).
Proof.
  induction l as [|y l IH]; intros Hl Hx; simpl.
  - constructor; [intros []|constructor].
  - inversion Hl as [|? ? Hy Hl']; subst. constructor.
    + intros Hin. apply in_app_or in Hin. destruct Hin as [Hin|[->|[]]].
      * now apply Hy.
      * apply Hx. now left.
    + apply IH; [exact Hl'|]. intros Hin. apply Hx. now right.
Qed.

Lemma mem_false_not_In (x : string) (l : list string) :
  mem x l = false -> ~ In x l.
Proof.
  unfold mem. intros H Hin.
  assert (existsb (String.eqb x) l = true); [|congruence].
  apply existsb_exists. exists x. split; [exact Hin|apply String.eqb_refl].
Qed.

Lemma merge_result_NoDup (e : enrichment (list string))
    (r : search_result) :
  List.NoDup (other_urls e) -> List.NoDup (other_urls (merge_result e r)).
Proof.
  intros H. merge_cases; try exact H.
  apply NoDup_snoc; [exact H|]. apply mem_false_not_In.
  match goal with H : negb _ = true |- _ =>
    now apply negb_true_iff in H end.
Qed.

(** X11.  [other_urls] never lists a URL twice, however often the
    candidates repeat it. *)
Theorem other_urls_has_no_duplicate (results : list search_result)
    (username raw now : string) :
  List.NoDup (other_urls (merge_results results (blank username raw now))).
Proof.
  assert (H : forall e, List.NoDup (other_urls e) ->
                        List.NoDup (other_urls (merge_results results e))).
  { induction results as [|r results IH]; intros e He; [exact He|].
    simpl. apply IH. now apply merge_result_NoDup. }
  apply H. constructor.
Qed.

Lemma merge_result_linkedin_unmatched (e : enrichment (list string))
    (r : search_result) :
  Py.contains "linkedin.com/in/" (Py.lower (url r)) = false ->
  linkedin_url (merge_result e r) = linkedin_url e.
Proof.
  intros H. unfold merge_result. rewrite H. simpl.
  repeat match goal with
         | |- context [if ?b then _ else _] => destruct b
         end; reflexivity.
Qed.

Lemma merge_results_linkedin_set (results : list search_result) :
  forall e, Py.truthy_opt (linkedin_url e) = true ->
            linkedin_url (merge_results results e) = linkedin_url e.
Proof.
  induction results as [|r results IH]; intros e H; [reflexivity|].
  simpl. destruct (merge_result_keeps_truthy_fields e r) as (Hl & _).
  rewrite IH; [now apply Hl|]. now rewrite Hl.
Qed.

(** X12.  [linkedin_url] is the URL, in its original case, of the first
    candidate whose lowered URL contains the LinkedIn profile pattern, when
    no LinkedIn URL was set before. *)
Theorem first_linkedin_candidate_wins (pre post : list search_result)
    (r : search_result) (e : enrichment (list string)) :
  Py.truthy_opt (linkedin_url e) = false ->
  (forall p, In p pre ->
             Py.contains "linkedin.com/in/" (Py.lower (url p)) = false) ->
  Py.contains "linkedin.com/in/" (Py.lower (url r)) = true ->
  linkedin_url (merge_results (pre ++ r :: post) e) = Some (url r).
Proof.
  intros He Hpre Hr. unfold merge_results. rewrite fold_left_app. simpl.
  fold (merge_results pre e).
  assert (Hp : linkedin_url (merge_results pre e) = linkedin_url e).
  { clear Hr. revert e He. induction pre as [|p pre IH]; intros e He;
      [reflexivity|].
    simpl.
    assert (Hstep : linkedin_url (merge_result e p) = linkedin_url e)
      by (apply merge_result_linkedin_unmatched, Hpre; now left).
    rewrite IH.
    - exact Hstep.
    - intros q Hq. apply Hpre. now right.
    - now rewrite Hstep. }
  set (e1 := merge_results pre e) in *.
  assert (H1 : linkedin_url (merge_result e1 r) = Some (url r)).
  { unfold merge_result. rewrite Hr, Hp, He. simpl.
    repeat match goal with
           | |- context [if ?b then _ else _] => destruct b
           end; reflexivity. }
  fold (merge_results post (merge_result e1 r)).
  rewrite merge_results_linkedin_set; [exact H1|].
  rewrite H1. simpl. now apply (contains_truthy _ _ _ Hr).
Qed.

Lemma first_linkedin_candidate_wins_witness :
  linkedin_url (merge_results sample_results (blank "alice" "raw" "now"))
  = Some "https://www.linkedin.com/in/alice-a".
Proof.
  apply (first_linkedin_candidate_wins
           [mkResult "https://github.com/alice" None]
           [mkResult "https://github.com/alice" None;
            mkResult "https://alice.example" None;
            mkResult "https://alice.example" None]
           (mkResult "https://www.linkedin.com/in/alice-a"
              (Some "Alice A - Engineer - Acme | LinkedIn"))
           (blank "alice" "raw" "now")).
  - reflexivity.
  - intros p [<-|[]]. vm_compute. reflexivity.
  - vm_compute. reflexivity.
Defined.

(** *** The record [enrich_user] returns *)

Lemma merge_result_frame (e : enrichment (list string)) (r : search_result) :
  username (merge_result e r) = username e
  /\ company (merge_result e r) = company e
  /\ title (merge_result e r) = title e
  /\ location (merge_result e r) = location e
  /\ bio (merge_result e r) = bio e
  /\ raw_response (merge_result e r) = raw_response e
  /\ enriched_at (merge_result e r) = enriched_at e.
Proof. merge_cases; repeat split. Qed.

Lemma merge_results_frame (results : list search_result) :
  forall e,
    username (merge_results results e) = username e
    /\ company (merge_results results e) = company e
    /\ title (merge_results results e) = title e
    /\ location (merge_results results e) = location e
    /\ bio (merge_results results e) = bio e
    /\ raw_response (merge_results results e) = raw_response e
    /\ enriched_at (merge_results results e) = enriched_at e.
Proof.
  induction results as [|r results IH]; intros e; [repeat split|].
  simpl. destruct (IH (merge_result e r)) as (A & B & C & D & E & F & G).
  destruct (merge_result_frame e r) as (A' & B' & C' & D' & E' & F' & G').
  repeat split; congruence.
Qed.

(** X13.  A record [enrich_user] returns comes from a query that was built
    and a search that returned at least one candidate; it carries the
    username of the user, the serialized response and the time of the call,
    and its [company], [title], [location] and [bio] are always null. *)
Theorem enrich_user_record (search : string -> option (list search_result))
    (dump_raw : list search_result -> string) (utcnow : string)
    (user : Db.user_row) (e : enrichment string) :
  enrich_user search dump_raw utcnow user = Some e ->
  exists q results,
    build_search_query user = Some q
    /\ search q = Some results /\ results <> []
    /\ username e = Db.username user
    /\ company e = None /\ title e = None
    /\ location e = None /\ bio e = None
    /\ raw_response e = dump_raw results /\ enriched_at e = utcnow.
Proof.
  unfold enrich_user. intros H.
  destruct (build_search_query user) as [q|]; [|discriminate].
  destruct (negb (Py.truthy q)); [discriminate|].
  destruct (search q) as [[|r results]|] eqn:Es; try discriminate.
  injection H as <-. exists q, (r :: results).
  set (b := blank (Db.username user) (dump_raw (r :: results)) utcnow).
  destruct (merge_results_frame (r :: results) b)
    as (A & B & C & D & E & F & G).
  change (merge_results (r :: results) b)
    with (merge_results results (merge_result b r)) in A, B, C, D, E, F, G.
  unfold set_other_urls. cbn [username company title location bio
                              raw_response enriched_at].
  fold b. rewrite A, B, C, D, E, F, G.
  repeat split; first [exact Es | discriminate].
Qed.

Lemma enrich_user_record_witness :
  exists q results,
    build_search_query website_user = Some q
    /\ (fun _ : string => Some sample_results) q = Some results
    /\ results <> []
    /\ "erin" = Db.username website_user
    /\ @None string = None /\ @None string = None
    /\ @None string = None /\ @None string = None
    /\ "raw" = (fun _ : list search_result => "raw") results
    /\ "now" = "now".
Proof.
  apply (enrich_user_record (fun _ => Some sample_results)
           (fun _ => "raw") "now" website_user
           (mkEnr string "erin" (Some "Alice A")
              (Some "https://www.linkedin.com/in/alice-a")
              (Some "https://github.com/alice") None None None None None
              (json_dumps ["https://github.com/alice";
                           "https://alice.example"])
              "raw" "now")).
  vm_compute. reflexivity.
Defined.

(** *** The JSON text of [other_urls] *)

Lemma all_printable_app (a b : string) :
  all_printable (a +:+ b) = all_printable a && all_printable b.
Proof.
  unfold all_printable. induction a as [|c a IH]; simpl; [reflexivity|].
  rewrite IH. now rewrite andb_assoc.
Qed.

Lemma json_char_printable (c : ascii) : all_printable (json_char c) = true.
Proof.
  destruct c as [[] [] [] [] [] [] [] []]; vm_compute; reflexivity.
Qed.

Lemma json_string_body_printable (s : string) :
  all_printable (json_string_body s) = true.
Proof.
  induction s as [|c s IH]; [reflexivity|]. simpl.
  now rewrite all_printable_app, json_char_printable, IH.
Qed.

Lemma join_printable (l : list string) :
  Forall (fun x => all_printable x = true) l ->
  all_printable (Py.join ", " l) = true.
Proof.
  unfold Py.join. induction 1 as [|x l Hx Hl IH]; [reflexivity|].
  destruct l as [|y l]; [exact Hx|].
  change (String.concat ", " (x :: y :: l))
    with (x +:+ ", " +:+ String.concat ", " (y :: l)).
  rewrite !all_printable_app, Hx, IH. reflexivity.
Qed.

(** X14.  The JSON text written for [other_urls] holds printable ASCII
    characters only, whatever characters the URLs hold. *)
Theorem json_dumps_is_printable_ascii (l : list string) :
  all_printable (json_dumps l) = true.
Proof.
  unfold json_dumps. rewrite !all_printable_app, join_printable.
  - reflexivity.
  - apply List.Forall_forall. intros x Hx. apply in_map_iff in Hx.
    destruct Hx as (y & <- & _).
    change (String quote (json_string_body y) +:+ String quote "")
      with (String quote "" +:+ json_string_body y +:+ String quote "").
    now rewrite !all_printable_app, json_string_body_printable.
Qed.

(** *** Saving and eligibility *)

Lemma lookup_save_enrichment_eq (e : enrichment string) (s : Db.db) :
  is_Some (Db.enrichment (save_enrichment e s) !! username e).
Proof.
  unfold save_enrichment. cbn [Db.enrichment].
  rewrite lookup_insert_eq. eauto.
Qed.

Lemma lookup_save_enrichment_ne (e : enrichment string) (s : Db.db)
    (x : string) :
  x <> username e ->
  Db.enrichment (save_enrichment e s) !! x = Db.enrichment s !! x.
Proof.
  intros H. unfold save_enrichment. cbn [Db.enrichment].
  now rewrite lookup_insert_ne.
Qed.

(** X15.  Saving an enrichment leaves the users table as it is and takes
    the user out of the users eligible for enrichment, for good; the
    eligibility of the other users does not change. *)
Theorem saved_user_is_no_longer_eligible (e : enrichment string)
    (s : Db.db) :
  Db.users (save_enrichment e s) = Db.users s
  /\ (forall u, Db.username u = username e ->
                Queries.eligible (save_enrichment e s) u = false)
  /\ (forall u, Db.username u <> username e ->
                Queries.eligible (save_enrichment e s) u
                = Queries.eligible s u)
  /\ (forall u, In u (Queries.get_users_for_enrichment (save_enrichment e s))
                -> Db.username u <> username e).
Proof.
  assert (Hno : forall u, Db.username u = username e ->
                  Queries.eligible (save_enrichment e s) u = false).
  { intros u Hu. unfold Queries.eligible. rewrite Hu.
    destruct (lookup_save_enrichment_eq e s) as [r ->].
    rewrite bool_decide_eq_false_2 by discriminate. reflexivity. }
  repeat split.
  - exact Hno.
  - intros u Hu. unfold Queries.eligible.
    now rewrite lookup_save_enrichment_ne.
  - intros u Hin Hu. unfold Queries.get_users_for_enrichment in Hin.
    apply filter_In in Hin. destruct Hin as [_ Hel].
    rewrite (Hno u Hu) in Hel. discriminate.
Qed.

Lemma saved_user_is_no_longer_eligible_witness :
  Queries.eligible (save_enrichment first_enrichment Db.alice_stored)
    (Db.mkUser 1 "alice" (Some 100) (Some "I write compilers") None
               (Some "root") None None None None)
  = false.
Proof.
  apply (proj1 (proj2 (saved_user_is_no_longer_eligible first_enrichment
                         Db.alice_stored))).
  reflexivity.
Defined.

(** *** A LinkedIn candidate after [linkedin_url] is set *)

Lemma merge_result_linkedin_set (e : enrichment (list string))
    (r : search_result) :
  Py.truthy_opt (linkedin_url e) = true ->
  merge_result e r = below_linkedin e r.
Proof.
  intros H. unfold merge_result, below_linkedin.
  rewrite H, andb_false_r. reflexivity.
Qed.

Lemma below_linkedin_keeps (e : enrichment (list string))
    (r : search_result) :
  linkedin_url (below_linkedin e r) = linkedin_url e
  /\ full_name (below_linkedin e r) = full_name e.
Proof.
  unfold below_linkedin.
  repeat match goal with
         | |- context [if ?b then _ else _] => destruct b
         end; split; reflexivity.
Qed.

Lemma merge_results_linkedin_set_keeps (results : list search_result) :
  forall e, Py.truthy_opt (linkedin_url e) = true ->
            linkedin_url (merge_results results e) = linkedin_url e
            /\ full_name (merge_results results e) = full_name e.
Proof.
  induction results as [|r results IH]; intros e H; [split; reflexivity|].
  simpl. rewrite (merge_result_linkedin_set e r H).
  destruct (below_linkedin_keeps e r) as (Hl & Hn).
  destruct (IH (below_linkedin e r)) as (Hl' & Hn'); [now rewrite Hl|].
  split; congruence.
Qed.

Lemma below_linkedin_kept_aside (e : enrichment (list string))
    (r : search_result) :
  kept_aside (below_linkedin e r) (url r).
Proof.
  unfold kept_aside, below_linkedin.
  repeat match goal with
         | |- context [if ?b then _ else _] => destruct b eqn:?
         end; simpl.
  - now left.
  - right. now left.
  - right. right. apply in_or_app. right. now left.
  - right. right. apply EnrichFacts.mem_In.
    match goal with H : negb _ = false |- _ =>
      now apply negb_false_iff in H end.
Qed.

Lemma merge_result_keeps_aside (e : enrichment (list string))
    (r : search_result) (x : string) :
  Py.truthy x = true -> kept_aside e x -> kept_aside (merge_result e r) x.
Proof.
  destruct (merge_result_keeps_truthy_fields e r) as (_ & Hg & Ht & _).
  intros T [H|[H|H]].
  - left. rewrite Hg; [exact H|]. now rewrite H.
  - right; left. rewrite Ht; [exact H|]. now rewrite H.
  - right; right. now apply EnrichFacts.merge_result_keeps_other_urls.
Qed.

Lemma merge_results_keeps_aside (results : list search_result) (x : string) :
  Py.truthy x = true ->
  forall e, kept_aside e x -> kept_aside (merge_results results e) x.
Proof.
  intros T. induction results as [|r results IH]; intros e H; [exact H|].
  simpl. apply IH. now apply merge_result_keeps_aside.
Qed.

(** C3 (amended).  A candidate whose URL matches the LinkedIn pattern while
    [linkedin_url] is set changes neither [linkedin_url] nor [full_name],
    which keep their values to the end of the loop, and is not discarded:
    it falls through to the remaining branches, so it becomes [github_url]
    or [twitter_url] or is in [other_urls], after its own step and when the
    loop ends.  When its URL matches neither the GitHub nor the Twitter/X
    pattern it is appended to [other_urls] unless it is there already, and
    it is in [other_urls] when the loop ends. *)
Theorem later_linkedin_candidate_goes_to_other_urls
    (e : enrichment (list string)) (r : search_result)
    (rest : list search_result) :
  Py.truthy_opt (linkedin_url e) = true ->
  Py.contains "linkedin.com/in/" (Py.lower (url r)) = true ->
  merge_result e r = below_linkedin e r
  /\ (linkedin_url (merge_result e r) = linkedin_url e
      /\ full_name (merge_result e r) = full_name e)
  /\ (linkedin_url (merge_results (r :: rest) e) = linkedin_url e
      /\ full_name (merge_results (r :: rest) e) = full_name e)
  /\ kept_aside (merge_result e r) (url r)
  /\ kept_aside (merge_results (r :: rest) e) (url r)
  /\ (Py.contains "github.com/" (Py.lower (url r)) = false ->
      Py.contains "twitter.com/" (Py.lower (url r)) = false ->
      Py.contains "x.com/" (Py.lower (url r)) = false ->
      merge_result e r
      = (if mem (url r) (other_urls e) then e
         else set_other_urls e (other_urls e ++ [url r]))
      /\ In (url r) (other_urls (merge_result e r))
      /\ In (url r) (other_urls (merge_results (r :: rest) e))).
Proof.
  intros Hl Hin.
  pose proof (merge_result_linkedin_set e r Hl) as Hstep.
  pose proof (contains_truthy _ _ _ Hin) as Hu.
  assert (Hkept : kept_aside (merge_result e r) (url r))
    by (rewrite Hstep; apply below_linkedin_kept_aside).
  split; [exact Hstep|].
  split; [rewrite Hstep; apply below_linkedin_keeps|].
  split; [now apply merge_results_linkedin_set_keeps|].
  split; [exact Hkept|].
  split; [simpl; now apply merge_results_keeps_aside|].
  intros Hg Ht Hx.
  assert (Heq : merge_result e r
                = if mem (url r) (other_urls e) then e
                  else set_other_urls e (other_urls e ++ [url r])).
  { rewrite Hstep. unfold below_linkedin. rewrite Hg, Ht, Hx. simpl.
    destruct (mem (url r) (other_urls e)); reflexivity. }
  assert (Hmem : In (url r) (other_urls (merge_result e r))).
  { rewrite Heq. destruct (mem (url r) (other_urls e)) eqn:E.
    - now apply EnrichFacts.mem_In.
    - simpl. apply in_or_app. right. now left. }
  repeat split; [exact Heq | exact Hmem |].
  simpl. now apply EnrichFacts.merge_results_keeps_other_urls.
Qed.

Lemma later_linkedin_candidate_goes_to_other_urls_witness :
  In "https://www.linkedin.com/in/alice-b"
     (other_urls (merge_results [linkedin_second]
                    (merge_result (blank "alice" "raw" "now")
                                  linkedin_first))).
Proof.
  apply (later_linkedin_candidate_goes_to_other_urls
           (merge_result (blank "alice" "raw" "now") linkedin_first)
           linkedin_second []);
    vm_compute; reflexivity.
Defined.

End EnrichMoreFacts.

(** ** The scraper: list page, profile page, main loop and fetch *)

Module ScrapeMoreFacts.
Import Dom Scrape ScrapeMore Calls.

Lemma drop_prefix_Some (p s r : string) :
  Py.drop_prefix p s = Some r -> s = p +:+ r.
Proof.
  revert s. induction p as [|a p IH]; intros s H; simpl in *.
  - now injection H.
  - destruct s as [|b s]; [discriminate|].
    destruct (Ascii.eqb a b) eqn:E; [|discriminate].
    apply Ascii.eqb_eq in E. subst b. f_equal. now apply IH.
Qed.

Lemma span_split (p : ascii -> bool) (s a b : string) :
  Py.span p s = (a, b) ->
  s = a +:+ b /\ all_chars p a = true
  /\ match b with EmptyString => True | String c _ => p c = false end.
Proof.
  revert a b. induction s as [|c s IH]; intros a b H; simpl in H.
  - injection H as <- <-. repeat split.
  - destruct (p c) eqn:E.
    + destruct (Py.span p s) as [a' b'] eqn:Es. injection H as <- <-.
      destruct (IH a' b' eq_refl) as (-> & Ha & Hb).
      repeat split; [|exact Hb]. unfold all_chars in *. simpl.
      apply andb_true_intro. split; assumption.
    + injection H as <- <-. repeat split. exact E.
Qed.

Lemma span_app (p : ascii -> bool) (a b : string) :
  all_chars p a = true ->
  match b with EmptyString => True | String c _ => p c = false end ->
  Py.span p (a +:+ b) = (a, b).
Proof.
  unfold all_chars. induction a as [|c a IH]; simpl; intros Ha Hb.
  - destruct b as [|c b]; [reflexivity|]. simpl. now rewrite Hb.
  - apply andb_prop in Ha. destruct Ha as [Hc Ha].
    now rewrite Hc, IH.
Qed.

Lemma drop_any_two (a b r r' : string) :
  drop_any [a; b] r = Some r' -> r = a +:+ r' \/ r = b +:+ r'.
Proof.
  unfold drop_any. cbn [fold_right].
  destruct (Py.drop_prefix a r) as [r1|] eqn:E1.
  - intros [= <-]. left. now apply drop_prefix_Some.
  - destruct (Py.drop_prefix b r) as [r2|] eqn:E2; [|discriminate].
    intros [= <-]. right. now apply drop_prefix_Some.
Qed.

Lemma match_user_path_Some (href x : string) :
  match_user_path href = Some x <->
  Py.truthy x = true /\ all_chars (Py.is_handle_char true) x = true
  /\ (href = "/u/" +:+ x \/ href = "/~" +:+ x
      \/ href = "/u/" +:+ x +:+ newline \/ href = "/~" +:+ x +:+ newline).
Proof.
  split.
  - unfold match_user_path. intros H.
    destruct (Py.drop_prefix "/" href) as [r|] eqn:E0; [|discriminate].
    apply drop_prefix_Some in E0. subst href.
    destruct (drop_any ["u/"; "~"] r) as [r'|] eqn:E1; [|discriminate].
    apply drop_any_two in E1.
    assert (Hpre : exists pre, (pre = "u/" \/ pre = "~") /\ r = pre +:+ r')
      by (destruct E1 as [E1|E1]; eauto).
    clear E1. destruct Hpre as (pre & Hpre & ->).
    destruct (Py.span (Py.is_handle_char true) r') as [[|c name] rest] eqn:Es;
      [discriminate|].
    destruct (span_split _ _ _ _ Es) as (-> & Hall & _).
    destruct (String.eqb rest "" || String.eqb rest newline) eqn:Er;
      [|discriminate].
    injection H as <-. split; [reflexivity|]. split; [exact Hall|].
    apply orb_prop in Er.
    destruct Er as [Er|Er]; apply String.eqb_eq in Er; subst rest;
      destruct Hpre as [-> | ->]; simpl;
      rewrite ?TreeFacts.append_empty_r; tauto.
  - intros (Hx & Hall & H).
    assert (Hb : forall pre suf,
               pre = "u/" \/ pre = "~" -> suf = "" \/ suf = newline ->
               match_user_path ("/" +:+ pre +:+ x +:+ suf) = Some x).
    { intros pre suf Hpre Hsuf. unfold match_user_path.
      rewrite PyFacts.drop_prefix_app.
      assert (Hd : drop_any ["u/"; "~"] (pre +:+ x +:+ suf)
                   = Some (x +:+ suf)).
      { unfold drop_any. cbn [fold_right].
        destruct Hpre as [-> | ->].
        - now rewrite PyFacts.drop_prefix_app.
        - change (Py.drop_prefix "u/" ("~" +:+ x +:+ suf)) with (@None string).
          now rewrite PyFacts.drop_prefix_app. }
      rewrite Hd, span_app; [|exact Hall|destruct Hsuf as [-> | ->]; easy].
      destruct x as [|c x]; [discriminate|].
      destruct Hsuf as [-> | ->]; reflexivity. }
    destruct H as [-> | [-> | [-> | ->]]].
    + rewrite <- (TreeFacts.append_empty_r x) at 1.
      apply (Hb "u/" ""); now left.
    + rewrite <- (TreeFacts.append_empty_r x) at 1.
      apply (Hb "~" ""); [now right|now left].
    + apply (Hb "u/" newline); [now left|now right].
    + apply (Hb "~" newline); now right.
Qed.

(** X17.  A username is in the result of [parse_user_list_page] exactly
    when it is a non-empty run of letters, digits, underscores and dashes
    and some link of the page has the target [/u/<username>] or
    [/~<username>], a final newline allowed. *)
Theorem list_page_usernames (soup : list node) (x : string) :
  x ∈ parse_user_list_page soup <->
  Py.truthy x = true /\ all_chars (Py.is_handle_char true) x = true
  /\ exists href,
       In href (link_hrefs soup)
       /\ (href = "/u/" +:+ x \/ href = "/~" +:+ x
           \/ href = "/u/" +:+ x +:+ newline
           \/ href = "/~" +:+ x +:+ newline).
Proof.
  unfold parse_user_list_page.
  rewrite elem_of_list_to_set, list_elem_of_omap. split.
  - intros (href & Hin & Hm). apply match_user_path_Some in Hm.
    destruct Hm as (A & B & C). repeat split; try assumption.
    exists href. split; [now apply list_elem_of_In|exact C].
  - intros (A & B & href & Hin & C). exists href.
    split; [now apply list_elem_of_In|].
    apply match_user_path_Some. auto.
Qed.

Lemma list_page_usernames_witness :
  "al-ice_1" ∈ parse_user_list_page users_page.
Proof.
  apply (proj2 (list_page_usernames users_page "al-ice_1")).
  split; [reflexivity|]. split; [vm_compute; reflexivity|].
  exists "/u/al-ice_1". split; [vm_compute; tauto|now left].
Defined.

(** *** The link loop of the profile page *)

Lemma classify_link_website (data : profile_data) (href : string) :
  website (classify_link data href)
  = match website data with
    | Some w => Some w
    | None =>
        if Py.startswith "http" href
           && negb (existsb (fun domain => Py.contains domain href)
                            known_platforms)
        then Some href else None
    end.
Proof.
  unfold classify_link. destruct data as [u k c i a g t w].
  destruct (match_profile_url ["github.com/"] true href);
    destruct (match_profile_url ["twitter.com/"; "x.com/"] false href);
    destruct (Py.startswith "http" href
              && negb (existsb (fun domain => Py.contains domain href)
                               known_platforms));
    destruct w; reflexivity.
Qed.

Lemma classify_link_frame (data : profile_data) (href : string) :
  username (classify_link data href) = username data
  /\ karma (classify_link data href) = karma data
  /\ created_at (classify_link data href) = created_at data
  /\ invited_by_username (classify_link data href) = invited_by_username data
  /\ about (classify_link data href) = about data.
Proof.
  unfold classify_link. destruct data as [u k c i a g t w].
  destruct (match_profile_url ["github.com/"] true href);
    destruct (match_profile_url ["twitter.com/"; "x.com/"] false href);
    destruct (Py.startswith "http" href
              && negb (existsb (fun domain => Py.contains domain href)
                               known_platforms));
    destruct w; repeat split.
Qed.

Lemma fold_classify_website_set (hrefs : list string) :
  forall data w, website data = Some w ->
                 website (fold_left classify_link hrefs data) = Some w.
Proof.
  induction hrefs as [|h hrefs IH]; intros data w H; [exact H|].
  simpl. apply IH. now rewrite classify_link_website, H.
Qed.

Lemma fold_classify_website_new (hrefs : list string) :
  forall data w,
    website data = None ->
    website (fold_left classify_link hrefs data) = Some w ->
    In w hrefs /\ Py.startswith "http" w = true
    /\ forall domain, In domain known_platforms ->
                      Py.contains domain w = false.
Proof.
  induction hrefs as [|h hrefs IH]; intros data w H Hw; simpl in Hw.
  - congruence.
  - pose proof (classify_link_website data h) as Hc. rewrite H in Hc.
    destruct (Py.startswith "http" h
              && negb (existsb (fun domain => Py.contains domain h)
                               known_platforms)) eqn:E.
    + rewrite (fold_classify_website_set hrefs _ h Hc) in Hw.
      injection Hw as <-. apply andb_prop in E. destruct E as [E1 E2].
      split; [now left|]. split; [exact E1|].
      intros domain Hd. apply negb_true_iff in E2.
      destruct (Py.contains domain h) eqn:Ec; [|reflexivity].
      assert (existsb (fun domain => Py.contains domain h) known_platforms
              = true); [|congruence].
      apply existsb_exists. now exists domain.
    + destruct (IH _ w Hc Hw) as (A & B & C). split; [now right|now split].
Qed.

(** X18.  In the link loop of [parse_user_profile] a website, once set, is
    never replaced; a website the loop sets is a link of the page that
    starts with "http" and contains none of the known platform domains; and
    the loop leaves the username, the karma, the join date, the inviter and
    the bio as they were. *)
Theorem website_is_first_external_link (soup : list node)
    (data : profile_data) :
  (forall w, website data = Some w ->
             website (extract_links soup data) = Some w)
  /\ (forall w, website data = None ->
                website (extract_links soup data) = Some w ->
                In w (link_hrefs soup) /\ Py.startswith "http" w = true
                /\ forall domain, In domain known_platforms ->
                                  Py.contains domain w = false)
  /\ (username (extract_links soup data) = username data
      /\ karma (extract_links soup data) = karma data
      /\ created_at (extract_links soup data) = created_at data
      /\ invited_by_username (extract_links soup data)
         = invited_by_username data
      /\ about (extract_links soup data) = about data).
Proof.
  unfold extract_links. split; [|split].
  - intros w. apply fold_classify_website_set.
  - intros w. apply fold_classify_website_new.
  - generalize (link_hrefs soup) as hrefs. intros hrefs. revert data.
    induction hrefs as [|h hrefs IH]; intros data; [repeat split|].
    simpl. destruct (IH (classify_link data h)) as (A & B & C & D & E).
    destruct (classify_link_frame data h) as (A' & B' & C' & D' & E').
    repeat split; congruence.
Qed.

Lemma website_is_first_external_link_witness :
  In "https://alice.example" (link_hrefs two_links_page)
  /\ Py.startswith "http" "https://alice.example" = true
  /\ forall domain, In domain known_platforms ->
                    Py.contains domain "https://alice.example" = false.
Proof.
  apply (proj1 (proj2 (website_is_first_external_link two_links_page
                         (fresh_profile "carol")))
           "https://alice.example");
    vm_compute; reflexivity.
Defined.

Lemma classify_link_github (data : profile_data) (href : string) :
  github_username (classify_link data href)
  = match match_profile_url ["github.com/"] true href with
    | Some g => Some g
    | None => github_username data
    end.
Proof.
  unfold classify_link. destruct data as [u k c i a g t w].
  destruct (match_profile_url ["github.com/"] true href);
    destruct (match_profile_url ["twitter.com/"; "x.com/"] false href);
    destruct (Py.startswith "http" href
              && negb (existsb (fun domain => Py.contains domain href)
                               known_platforms));
    destruct w; reflexivity.
Qed.

Lemma fold_classify_github_unmatched (hrefs : list string) :
  forall data,
    (forall h, In h hrefs ->
               match_profile_url ["github.com/"] true h = None) ->
    github_username (fold_left classify_link hrefs data)
    = github_username data.
Proof.
  induction hrefs as [|h hrefs IH]; intros data H; [reflexivity|].
  simpl. rewrite IH by (intros h' Hh'; apply H; now right).
  rewrite classify_link_github, (H h) by now left. reflexivity.
Qed.

(** X19.  When the links of a profile page are walked, the GitHub username
    is the one of the last link that matches the GitHub profile pattern,
    whatever the links before it set. *)
Theorem last_github_link_wins (before after : list string) (h g : string)
    (data : profile_data) :
  match_profile_url ["github.com/"] true h = Some g ->
  (forall h', In h' after ->
              match_profile_url ["github.com/"] true h' = None) ->
  github_username (fold_left classify_link (before ++ h :: after) data)
  = Some g.
Proof.
  intros Hh Hafter. rewrite fold_left_app. simpl.
  rewrite fold_classify_github_unmatched by exact Hafter.
  now rewrite classify_link_github, Hh.
Qed.

Lemma last_github_link_wins_witness :
  github_username
    (fold_left classify_link
       (["https://github.com/alice"; "https://alice.example"]
        ++ "https://github.com/bob" :: ["https://bob.example"])
       (fresh_profile "carol"))
  = Some "bob".
Proof.
  apply (last_github_link_wins
           ["https://github.com/alice"; "https://alice.example"]
           ["https://bob.example"] "https://github.com/bob" "bob"
           (fresh_profile "carol")).
  - vm_compute. reflexivity.
  - intros h' [<-|[]]. vm_compute. reflexivity.
Defined.

(** X20.  A username the profile patterns extract from a link is a
    non-empty run of letters, digits and underscores (and dashes for
    GitHub), and the link starts with "http". *)
Theorem extracted_handle_is_well_formed (hosts : list string) (dash : bool)
    (href g : string) :
  match_profile_url hosts dash href = Some g ->
  Py.truthy g = true /\ all_chars (Py.is_handle_char dash) g = true
  /\ Py.startswith "http" href = true.
Proof.
  unfold match_profile_url. intros H.
  destruct (Py.drop_prefix "http" href) as [r|] eqn:E0; [|discriminate].
  apply drop_prefix_Some in E0. subst href.
  destruct (Py.drop_prefix "://" (opt_prefix "s" r)) as [r1|]; [|discriminate].
  destruct (drop_any hosts (opt_prefix "www." r1)) as [r2|]; [|discriminate].
  destruct (Py.span (Py.is_handle_char dash) r2) as [[|c name] rest] eqn:Es;
    [discriminate|].
  destruct (at_end rest); [|discriminate]. injection H as <-.
  destruct (span_split _ _ _ _ Es) as (_ & Hall & _).
  split; [reflexivity|]. split; [exact Hall|].
  apply PyFacts.startswith_app.
Qed.

Lemma extracted_handle_is_well_formed_witness :
  Py.truthy "a-b_1" = true
  /\ all_chars (Py.is_handle_char true) "a-b_1" = true
  /\ Py.startswith "http" "https://www.github.com/a-b_1/" = true.
Proof.
  apply (extracted_handle_is_well_formed ["github.com/"] true
           "https://www.github.com/a-b_1/" "a-b_1").
  vm_compute. reflexivity.
Defined.

(** *** The karma of the profile page *)

Lemma int_nonneg (s : string) : 0 <= Py.int s.
Proof. unfold Py.int. destruct (NilEmpty.uint_of_string s); lia. Qed.

Lemma first_number_at_digit (c : ascii) (s : string) :
  Py.is_digit c = true -> is_Some (first_number (String c s)).
Proof. intros H. simpl. rewrite H. eauto. Qed.

Lemma mentions_karma_has_number (s : string) :
  mentions_karma s = true -> is_Some (first_number s).
Proof.
  induction s as [|c s IH]; intros H; [discriminate|].
  simpl in H. apply orb_prop in H. destruct H as [H|H].
  - unfold karma_word_here in H. simpl in H.
    destruct (Py.is_digit c) eqn:E; [now apply first_number_at_digit|].
    discriminate.
  - simpl. destruct (Py.is_digit c); [eauto|now apply IH].
Qed.

Lemma first_number_after (pre ds rest : string) :
  all_chars (fun c => negb (Py.is_digit c)) pre = true ->
  Py.truthy ds = true -> all_chars Py.is_digit ds = true ->
  match rest with
  | EmptyString => True
  | String c _ => Py.is_digit c = false
  end ->
  first_number (pre +:+ ds +:+ rest) = Some ds.
Proof.
  intros Hpre Ht Hds Hrest. unfold all_chars in Hpre.
  induction pre as [|c pre IH]; simpl in *.
  - destruct ds as [|d ds]; [discriminate|].
    pose proof (span_app Py.is_digit (String d ds) rest Hds Hrest) as Hs.
    unfold all_chars in Hds. simpl in Hds.
    apply andb_prop in Hds. destruct Hds as [Hd _].
    change (String d ds +:+ rest) with (String d (ds +:+ rest)) in *.
    cbn [first_number]. rewrite Hd, Hs. reflexivity.
  - apply andb_prop in Hpre. destruct Hpre as [Hc Hpre].
    apply negb_true_iff in Hc. rewrite Hc. now apply IH.
Qed.

(** X21.  When a string of the profile page mentions a karma, the karma
    taken is the first number of the first such string, which need not be
    the number in front of the word "karma"; it is never negative. *)
Theorem profile_karma_is_first_number (soup : list node)
    (s pre ds rest : string) :
  List.find mentions_karma (flat_map strings soup) = Some s ->
  s = pre +:+ ds +:+ rest ->
  all_chars (fun c => negb (Py.is_digit c)) pre = true ->
  Py.truthy ds = true -> all_chars Py.is_digit ds = true ->
  match rest with
  | EmptyString => True
  | String c _ => Py.is_digit c = false
  end ->
  profile_karma soup = Some (Py.int ds) /\ 0 <= Py.int ds.
Proof.
  intros Hf -> Hpre Ht Hds Hrest. unfold profile_karma.
  rewrite Hf, first_number_after by assumption.
  split; [reflexivity|apply int_nonneg].
Qed.

Lemma profile_karma_is_first_number_witness :
  profile_karma aged_profile_page = Some 2 /\ 0 <= 2.
Proof.
  apply (profile_karma_is_first_number aged_profile_page
           "2 years ago, 150 karma" "" "2" " years ago, 150 karma");
    vm_compute; first [reflexivity | exact I].
Defined.

(** X22.  Whenever some string of the profile page mentions a karma, a
    karma is extracted. *)
Theorem profile_karma_is_found (soup : list node) (s : string) :
  In s (flat_map strings soup) -> mentions_karma s = true ->
  exists k, profile_karma soup = Some k /\ 0 <= k.
Proof.
  intros Hin Hs. unfold profile_karma.
  destruct (List.find mentions_karma (flat_map strings soup)) as [m|] eqn:E.
  - apply find_some in E. destruct E as [_ Hm].
    destruct (mentions_karma_has_number m Hm) as [ds ->].
    exists (Py.int ds). split; [reflexivity|apply int_nonneg].
  - pose proof (find_none _ _ E s Hin). congruence.
Qed.

Lemma profile_karma_is_found_witness :
  exists k, profile_karma aged_profile_page = Some k /\ 0 <= k.
Proof.
  apply (profile_karma_is_found aged_profile_page "2 years ago, 150 karma").
  - simpl. tauto.
  - vm_compute. reflexivity.
Defined.

(** *** The main loop *)

Section MainFacts.

Variable scrape_user : string -> option (profile_data * string).

(** What [parse_user_profile] guarantees: the dictionary carries the
    username asked for, and [scraped_at] is not empty. *)
Hypothesis scrape_user_ok :
  forall u d t, scrape_user u = Some (d, t) ->
                username d = u /\ Py.truthy t = true.

Lemma scrape_one_skips (s : Db.db) (u : string) :
  scraped u s -> scrape_one scrape_user s u = s.
Proof.
  intros (r & Hr & Ht). unfold scrape_one. now rewrite Hr, Ht.
Qed.

Lemma scrape_one_keeps_scraped (s : Db.db) (u v : string) :
  scraped u s -> scraped u (scrape_one scrape_user s v).
Proof.
  intros Hs. unfold scrape_one.
  destruct (match Db.get_user v s with
            | Some existing => Py.truthy_opt (Db.scraped_at existing)
            | None => false
            end) eqn:Ea; [exact Hs|].
  assert (Hne : forall w, w = u -> w <> v \/ False).
  { intros w ->. left. intros ->. destruct Hs as (r & Hr & Ht).
    rewrite Hr, Ht in Ea. discriminate. }
  destruct Hs as (r & Hr & Ht). unfold scraped, Db.get_user in *.
  destruct (scrape_user v) as [[d t]|] eqn:Es.
  - destruct (scrape_user_ok v d t Es) as [Hd Htt].
    unfold upsert_profile. rewrite DbFacts.lookup_upsert_user, Hd.
    destruct (decide (v = u)) as [->|_].
    + destruct (Hne u eq_refl) as [H|[]]. congruence.
    + eauto.
  - rewrite DbFacts.lookup_upsert_user.
    destruct (decide (v = u)) as [->|_].
    + destruct (Hne u eq_refl) as [H|[]]. congruence.
    + eauto.
Qed.

Lemma scrape_all_keeps_scraped (us : list string) :
  forall s u, scraped u s -> scraped u (scrape_all scrape_user us s).
Proof.
  induction us as [|v us IH]; intros s u H; [exact H|].
  simpl. apply IH. now apply scrape_one_keeps_scraped.
Qed.

Lemma scrape_one_records (s : Db.db) (v : string) :
  is_Some (Db.get_user v (scrape_one scrape_user s v))
  /\ (is_Some (scrape_user v) -> scraped v (scrape_one scrape_user s v)).
Proof.
  unfold scrape_one.
  destruct (Db.get_user v s) as [r|] eqn:Er.
  - destruct (Py.truthy_opt (Db.scraped_at r)) eqn:Et.
    + split; [rewrite Er; eauto|]. intros _. exists r. now split.
    + unfold scraped, Db.get_user in *.
      destruct (scrape_user v) as [[d t]|] eqn:Es.
      * destruct (scrape_user_ok v d t Es) as [Hd Htt].
        unfold upsert_profile. rewrite DbFacts.lookup_upsert_user, Hd, Er.
        destruct (decide (v = v)); [|congruence].
        split; [eauto|]. intros _. eexists. split; [reflexivity|exact Htt].
      * rewrite DbFacts.lookup_upsert_user.
        destruct (decide (v = v)); [|congruence].
        split; [eauto|]. intros [x Hx]. discriminate.
  - unfold scraped, Db.get_user in *.
    destruct (scrape_user v) as [[d t]|] eqn:Es.
    + destruct (scrape_user_ok v d t Es) as [Hd Htt].
      unfold upsert_profile. rewrite DbFacts.lookup_upsert_user, Hd, Er.
      destruct (decide (v = v)); [|congruence].
      split; [eauto|]. intros _. eexists. split; [reflexivity|exact Htt].
    + rewrite DbFacts.lookup_upsert_user.
      destruct (decide (v = v)); [|congruence].
      split; [eauto|]. intros [x Hx]. discriminate.
Qed.

Lemma scrape_one_keeps_rows (s : Db.db) (u v : string) :
  is_Some (Db.get_user u s) ->
  is_Some (Db.get_user u (scrape_one scrape_user s v)).
Proof.
  intros H. unfold scrape_one.
  destruct (match Db.get_user v s with
            | Some existing => Py.truthy_opt (Db.scraped_at existing)
            | None => false
            end); [exact H|].
  unfold Db.get_user in *.
  destruct (scrape_user v) as [[d t]|]; unfold upsert_profile;
    rewrite DbFacts.lookup_upsert_user;
    match goal with |- context [decide ?P] => destruct (decide P) end;
    eauto.
Qed.

Lemma scrape_all_keeps_rows (us : list string) :
  forall s u, is_Some (Db.get_user u s) ->
              is_Some (Db.get_user u (scrape_all scrape_user us s)).
Proof.
  induction us as [|v us IH]; intros s u H; [exact H|].
  simpl. apply IH. now apply scrape_one_keeps_rows.
Qed.

Lemma scrape_one_untouched (s : Db.db) (v y : string) :
  y <> v ->
  Db.get_user y (scrape_one scrape_user s v) = Db.get_user y s.
Proof.
  intros Hne. unfold scrape_one.
  destruct (match Db.get_user v s with
            | Some existing => Py.truthy_opt (Db.scraped_at existing)
            | None => false
            end); [reflexivity|].
  unfold Db.get_user.
  destruct (scrape_user v) as [[d t]|] eqn:Es.
  - destruct (scrape_user_ok v d t Es) as [Hd _].
    unfold upsert_profile. rewrite DbFacts.lookup_upsert_user, Hd.
    destruct (decide (v = y)); [congruence|reflexivity].
  - rewrite DbFacts.lookup_upsert_user.
    destruct (decide (v = y)); [congruence|reflexivity].
Qed.

Lemma scrape_all_untouched (us : list string) (y : string) :
  ~ In y us ->
  forall s, Db.get_user y (scrape_all scrape_user us s) = Db.get_user y s.
Proof.
  induction us as [|v us IH]; intros Hy s; [reflexivity|].
  simpl. rewrite IH by (intros H; apply Hy; now right).
  apply scrape_one_untouched. intros ->. apply Hy. now left.
Qed.

Lemma scrape_all_records (us : list string) :
  forall s u,
    In u us ->
    is_Some (Db.get_user u (scrape_all scrape_user us s))
    /\ (is_Some (scrape_user u) -> scraped u (scrape_all scrape_user us s)).
Proof.
  induction us as [|v us IH]; intros s u Hin; [destruct Hin|].
  simpl. destruct Hin as [->|Hin]; [|now apply IH].
  destruct (scrape_one_records s u) as [A B]. split.
  - now apply scrape_all_keeps_rows.
  - intros H. now apply scrape_all_keeps_scraped, B.
Qed.

End MainFacts.

(** X23.  In the main loop of the scraper, a user whose row has a
    [scraped_at] is left alone: the step for that user changes nothing, and
    the steps for any list of usernames keep the row scraped. *)
Theorem scraped_user_is_left_alone
    (scrape_user : string -> option (profile_data * string))
    (us : list string) (s : Db.db) (u : string) :
  (forall v d t, scrape_user v = Some (d, t) ->
                 username d = v /\ Py.truthy t = true) ->
  scraped u s ->
  scrape_one scrape_user s u = s
  /\ scraped u (scrape_all scrape_user us s).
Proof.
  intros Hok Hs. split.
  - now apply scrape_one_skips.
  - now apply scrape_all_keeps_scraped.
Qed.

Lemma scrape_one_run_returns
    (scrape_user : string -> option (profile_data * string))
    (s : Db.db) (v : string) (n : nat) :
  (forall d t, scrape_user v = Some (d, t) -> binds (karma d) = true) ->
  room_for (S n) s ->
  scrape_one_run scrape_user s v = Returned (scrape_one scrape_user s v)
  /\ room_for n (scrape_one scrape_user s v).
Proof.
  intros Hb Hr.
  destruct (StoreFacts.room_for_step _ _ Hr) as (Hroom & Hn & Hnext).
  unfold scrape_one_run, scrape_one.
  destruct (match Db.get_user v s with
            | Some existing => Py.truthy_opt (Db.scraped_at existing)
            | None => false
            end); [split; [reflexivity | exact Hn]|].
  destruct (scrape_user v) as [[d t]|] eqn:E.
  - unfold upsert_profile_call, upsert_profile.
    rewrite StoreFacts.upsert_user_call_returns;
      [split; [reflexivity | apply Hnext]
      | now apply (Hb d t) | exact Hroom].
  - rewrite StoreFacts.upsert_user_call_returns;
      [split; [reflexivity | apply Hnext] | reflexivity | exact Hroom].
Qed.

Lemma scrape_all_run_returns
    (scrape_user : string -> option (profile_data * string))
    (us : list string) :
  forall s,
    (forall v d t, In v us -> scrape_user v = Some (d, t) ->
                   binds (karma d) = true) ->
    room_for (length us) s ->
    scrape_all_run scrape_user us s
    = Returned (scrape_all scrape_user us s).
Proof.
  induction us as [|v us IH]; intros s Hb Hr; [reflexivity|].
  destruct (scrape_one_run_returns scrape_user s v (length us)) as [E Hn];
    [intros d t; apply Hb; now left | exact Hr |].
  unfold scrape_all_run. simpl. rewrite E.
  apply IH; [|exact Hn]. intros w d t Hw. apply Hb. now right.
Qed.

Lemma scrape_one_run_raises
    (scrape_user : string -> option (profile_data * string))
    (s : Db.db) (v : string) (d : profile_data) (t : string) :
  ~ scraped v s ->
  scrape_user v = Some (d, t) ->
  binds (karma d) = false ->
  scrape_one_run scrape_user s v = Raised s.
Proof.
  intros Hn Hs Hb. unfold scrape_one_run.
  destruct (match Db.get_user v s with
            | Some existing => Py.truthy_opt (Db.scraped_at existing)
            | None => false
            end) eqn:Ea.
  - exfalso. apply Hn. destruct (Db.get_user v s) as [r|] eqn:Er;
      [|discriminate]. exists r. now split.
  - rewrite Hs. unfold upsert_profile_call.
    apply StoreFacts.upsert_user_call_raises. now left.
Qed.

(** X24.  When the karma of every fetched page fits 64 bits and the table
    has ids left for the list, the main loop returns, every username of
    the list has a row, also when its page could not be fetched, and the
    users whose page was fetched are marked as scraped.  At the first
    fetched page whose karma does not fit 64 bits the loop is left by the
    exception: that user is not marked as scraped, and a username the loop
    has not reached has the row it had before, or none. *)
Theorem main_loop_records_every_username
    (scrape_user : string -> option (profile_data * string))
    (us : list string) (s : Db.db) (u : string) :
  (forall v d t, scrape_user v = Some (d, t) ->
                 username d = v /\ Py.truthy t = true) ->
  In u us ->
  ((forall v d t, In v us -> scrape_user v = Some (d, t) ->
                  binds (karma d) = true) ->
   room_for (length us) s ->
   exists s',
     scrape_all_run scrape_user us s = Returned s'
     /\ is_Some (Db.get_user u s')
     /\ (is_Some (scrape_user u) -> scraped u s'))
  /\ (forall pre post d t,
        us = pre ++ u :: post ->
        (forall v d t, In v pre -> scrape_user v = Some (d, t) ->
                       binds (karma d) = true) ->
        room_for (length pre) s ->
        ~ scraped u (scrape_all scrape_user pre s) ->
        scrape_user u = Some (d, t) ->
        binds (karma d) = false ->
        exists s',
          scrape_all_run scrape_user us s = Raised s'
          /\ s' = scrape_all scrape_user pre s
          /\ ~ scraped u s'
          /\ (forall y, ~ In y pre -> Db.get_user y s' = Db.get_user y s)).
Proof.
  intros Hok Hin. split.
  - intros Hb Hr. exists (scrape_all scrape_user us s).
    split; [now apply scrape_all_run_returns|].
    now apply scrape_all_records.
  - intros pre post d t -> Hb Hr Hn Hs Hk.
    exists (scrape_all scrape_user pre s). split.
    + unfold scrape_all_run. rewrite StoreFacts.run_each_app.
      fold (scrape_all_run scrape_user pre s).
      rewrite (scrape_all_run_returns scrape_user pre s Hb Hr). simpl.
      now rewrite (scrape_one_run_raises scrape_user _ u d t Hn Hs Hk).
    + split; [reflexivity|]. split; [exact Hn|].
      intros y Hy. now apply scrape_all_untouched.
Qed.

Lemma sample_scrape_ok :
  forall v d t, sample_scrape v = Some (d, t) ->
                username d = v /\ Py.truthy t = true.
Proof. intros v d t [= <- <-]. now split. Qed.

Lemma main_loop_records_every_username_witness :
  exists s',
    scrape_all_run sample_scrape ["alice"; "bob"] Db.alice_stored
    = Returned s'
    /\ is_Some (Db.get_user "bob" s').
Proof.
  destruct (proj1 (main_loop_records_every_username sample_scrape
                     ["alice"; "bob"] Db.alice_stored "bob"
                     sample_scrape_ok (or_intror (or_introl eq_refl))))
    as (s' & Hs & Hrow & _).
  - intros v d t _ [= <- <-]. reflexivity.
  - vm_compute. discriminate.
  - exists s'. split; [exact Hs | exact Hrow].
Defined.

Lemma scraped_user_is_left_alone_witness :
  scrape_one sample_scrape
    (scrape_all sample_scrape ["alice"] Db.alice_stored) "alice"
  = scrape_all sample_scrape ["alice"] Db.alice_stored.
Proof.
  apply (scraped_user_is_left_alone sample_scrape []
           (scrape_all sample_scrape ["alice"] Db.alice_stored) "alice"
           sample_scrape_ok).
  eexists. split; vm_compute; reflexivity.
Defined.

(** *** Fetching with retries *)

(** X25.  [fetch_with_retry] makes at least one and at most three requests
    and sleeps at most 35 seconds of back-off; a text it returns is the
    text of the last request made, answered with status 200; and when
    every request is answered with status 429 it gives up after three
    requests, having slept 5, 10 and 20 seconds. *)
Theorem fetch_with_retry_is_bounded (respond : nat -> response) :
  (1 <= requests (fetch_with_retry respond) <= 3)%nat
  /\ fold_right Z.add 0 (backoffs (fetch_with_retry respond)) <= 35
  /\ (forall text,
        fetched (fetch_with_retry respond) = Some text ->
        respond (requests (fetch_with_retry respond) - 1)%nat
        = Http 200 text)
  /\ ((forall i, exists text, respond i = Http 429 text) ->
      fetch_with_retry respond = mkOutcome None 3 [5; 10; 20]).
Proof.
  unfold fetch_with_retry, MAX_RETRIES. cbn [fetch_from].
  destruct (respond 0%nat) as [c0 t0|] eqn:E0;
    destruct (respond 1%nat) as [c1 t1|] eqn:E1;
    destruct (respond 2%nat) as [c2 t2|] eqn:E2;
    repeat match goal with
           | |- context [(?x =? ?y)%Z] => destruct (Z.eqb_spec x y)
           end;
    cbn; subst;
    (split; [lia|]); (split; [vm_compute; discriminate|]);
    (split;
     [ intros text H; first [discriminate H | injection H as <-; assumption]
     | intros H;
       destruct (H 0%nat) as [x0 H0], (H 1%nat) as [x1 H1],
                (H 2%nat) as [x2 H2];
       first [reflexivity | congruence] ]).
Qed.

Lemma fetch_with_retry_is_bounded_witness :
  fetch_with_retry always_429 = mkOutcome None 3 [5; 10; 20].
Proof.
  apply (proj2 (proj2 (proj2 (fetch_with_retry_is_bounded always_429)))).
  intros i. now exists "slow down".
Defined.

End ScrapeMoreFacts.

(** ** The tree reconstructor: edge cases *)

Module TreeMoreFacts.
Import Dom ParseTree ParseTreeSpec ScrapeMore.

Lemma fact_karma_nonneg (li link : node) (parent : option string) :
  0 <= karma (fact_of_entry li link parent).
Proof.
  unfold fact_of_entry. cbn [karma].
  destruct (karma_search _ _); [apply ScrapeMoreFacts.int_nonneg|lia].
Qed.

Lemma Forall_flat_map_intro {A B : Type} (P : B -> Prop) (g : A -> list B)
    (l : list A) :
  (forall x, In x l -> List.Forall P (g x)) -> List.Forall P (flat_map g l).
Proof.
  induction l as [|x l IH]; intros H; simpl; [constructor|].
  apply List.Forall_app. split; [apply H; now left|].
  apply IH. intros y Hy. apply H. now right.
Qed.

Lemma parse_li_karma_nonneg (fuel : nat) :
  forall li parent,
    List.Forall (fun f => 0 <= karma f) (parse_li fuel li parent []).
Proof.
  induction fuel as [|fuel IH]; intros li parent; [constructor|].
  rewrite TreeFacts.parse_li_S.
  destruct (find_link li) as [link|]; [|constructor].
  destruct (find_child _ li) as [ul|].
  - rewrite TreeFacts.parse_each_flat. simpl. constructor.
    + apply fact_karma_nonneg.
    + apply Forall_flat_map_intro. intros c _. apply IH.
  - simpl. constructor; [apply fact_karma_nonneg|constructor].
Qed.

(** X26.  No reconstructed fact has a negative karma. *)
Theorem reconstructed_karma_is_not_negative (soup : list node)
    (f : user_fact) :
  In f (parse_users_tree soup) -> 0 <= karma f.
Proof.
  unfold parse_users_tree.
  destruct (List.find _ (descendants_of soup)) as [main|]; [|intros []].
  fold (parse_each (height main) None
          (find_all_children (is_tag "li") main) []).
  rewrite TreeFacts.parse_each_flat. simpl. intros Hin.
  assert (H : List.Forall (fun f => 0 <= karma f)
                (flat_map (fun li => parse_li (height main) li None [])
                          (find_all_children (is_tag "li") main))).
  { apply Forall_flat_map_intro. intros c _. apply parse_li_karma_nonneg. }
  rewrite List.Forall_forall in H. now apply H.
Qed.

Lemma reconstructed_karma_is_not_negative_witness : 0 <= 5.
Proof.
  apply (reconstructed_karma_is_not_negative documented_example
           (mkFact "child" 5 (Some "root") false)).
  vm_compute. tauto.
Defined.

(** X27.  The depth bound of the model is never reached: with any bound
    from the height of the main tree on, the loop over the top-level
    entries yields the list [parse_users_tree] returns. *)
Theorem depth_bound_is_never_reached (soup : list node) (main : node)
    (fuel : nat) :
  is_main_tree soup main -> (height main <= fuel)%nat ->
  parse_users_tree soup
  = fold_left (fun users li => parse_li fuel li None users)
      (find_all_children (is_tag "li") main) [].
Proof.
  intros Hm Hf. rewrite (TreeFacts.parse_users_tree_with_main _ _ Hm).
  now apply TreeFacts.parse_main_fuel.
Qed.

Lemma depth_bound_is_never_reached_witness :
  parse_users_tree documented_example
  = fold_left (fun users li => parse_li 100 li None users)
      (find_all_children (is_tag "li")
         (List.hd (Text "") documented_example)) [].
Proof.
  apply (depth_bound_is_never_reached documented_example
           (List.hd (Text "") documented_example) 100).
  - reflexivity.
  - vm_compute. lia.
Defined.

(** *** The username of an entry *)

Lemma contains_false_step (old : string) (c : ascii) (s : string) :
  Py.contains old (String c s) = false ->
  Py.drop_prefix old (String c s) = None /\ Py.contains old s = false.
Proof.
  cbn [Py.contains].
  destruct (Py.drop_prefix old (String c s)); [discriminate|]. now split.
Qed.

Lemma replace_fuel_absent (old new : string) (n : nat) :
  forall s,
    Py.contains old s = false -> (String.length s < n)%nat ->
    Py.replace_fuel n old new s = s.
Proof.
  induction n as [|n IH]; intros s Hc Hn; [lia|].
  destruct s as [|c s].
  - cbn [Py.replace_fuel]. cbn [Py.contains] in Hc.
    destruct (Py.drop_prefix old ""); [discriminate|reflexivity].
  - destruct (contains_false_step old c s Hc) as [Hd Hs].
    cbn [Py.replace_fuel]. rewrite Hd. f_equal.
    apply IH; [exact Hs|]. simpl in Hn. lia.
Qed.

Lemma replace_fuel_S (n : nat) (old new s : string) :
  Py.replace_fuel (S n) old new s
  = match Py.drop_prefix old s with
    | Some rest => new +:+ Py.replace_fuel n old new rest
    | None => match s with
              | EmptyString => EmptyString
              | String c s' => String c (Py.replace_fuel n old new s')
              end
    end.
Proof. reflexivity. Qed.

Lemma replace_user_prefix (u : string) :
  Py.contains "/~" u = false -> Py.replace "/~" "" ("/~" +:+ u) = u.
Proof.
  intros H. unfold Py.replace.
  rewrite replace_fuel_S, (PyFacts.drop_prefix_app "/~" u).
  cbn [String.append].
  apply replace_fuel_absent; [exact H|]. simpl. lia.
Qed.

(** X28.  The username of an entry is the [name] attribute of its link
    when that is not empty; otherwise it is what follows ["/~"] in the
    [href], provided no further ["/~"] occurs in it. *)
Theorem username_of_link (nm : string) (attrs : gmap string string)
    (cls : list string) (cs : list node) :
  (forall n, attrs !! "name" = Some n -> Py.truthy n = true ->
             link_username (Tag nm attrs cls cs) = n)
  /\ (forall u,
        attrs !! "name" = None \/ attrs !! "name" = Some "" ->
        attrs !! "href" = Some ("/~" +:+ u) ->
        Py.contains "/~" u = false ->
        link_username (Tag nm attrs cls cs) = u).
Proof.
  split.
  - intros n Hn Ht. unfold link_username. now rewrite Hn, Ht.
  - intros u Hn Hh Hu. unfold link_username.
    destruct Hn as [-> | ->]; rewrite Hh; cbn [Py.truthy default];
      now apply replace_user_prefix.
Qed.

Lemma username_of_link_witness :
  link_username
    (Tag "a" (attrs_of [("href", "/~dana")]) ["inactive_user"] [Text "Dana"])
  = "dana".
Proof.
  apply (proj2 (username_of_link "a" (attrs_of [("href", "/~dana")])
                  ["inactive_user"] [Text "Dana"]) "dana").
  - left. vm_compute. reflexivity.
  - vm_compute. reflexivity.
  - vm_compute. reflexivity.
Defined.

(** *** The karma of an entry *)

Lemma all_chars_app (p : ascii -> bool) (a b : string) :
  all_chars p (a +:+ b) = all_chars p a && all_chars p b.
Proof.
  unfold all_chars. induction a as [|c a IH]; simpl; [reflexivity|].
  rewrite IH. now rewrite andb_assoc.
Qed.

Lemma karma_match_here_none (u text : string) :
  all_chars not_paren text = true -> karma_match_here u text = None.
Proof.
  intros H. unfold karma_match_here.
  destruct (Py.drop_prefix u text) as [r|] eqn:E; [|reflexivity].
  apply ScrapeMoreFacts.drop_prefix_Some in E. subst text.
  rewrite all_chars_app in H. apply andb_prop in H. destruct H as [_ H].
  destruct (Py.span Py.is_space r) as [a b] eqn:Es.
  destruct (ScrapeMoreFacts.span_split _ _ _ _ Es) as (-> & _ & _).
  rewrite all_chars_app in H. apply andb_prop in H. destruct H as [_ H].
  cbn [snd]. destruct b as [|c b]; [reflexivity|].
  unfold all_chars in H. simpl in H. apply andb_prop in H.
  destruct H as [H _]. unfold not_paren in H. apply negb_true_iff in H.
  destruct (Ascii.eqb_spec c "("); [discriminate|].
  destruct c as [[] [] [] [] [] [] [] []]; try reflexivity. congruence.
Qed.

Lemma karma_search_none (u text : string) :
  all_chars not_paren text = true -> karma_search u text = None.
Proof.
  induction text as [|c text IH]; intros H.
  - simpl. now rewrite karma_match_here_none.
  - cbn [karma_search]. rewrite karma_match_here_none by exact H.
    apply IH. unfold all_chars in *. simpl in H.
    apply andb_prop in H. tauto.
Qed.

(** X29.  An entry whose text holds no opening parenthesis is recorded
    with karma 0. *)
Theorem entry_without_karma_gets_zero (fuel : nat) (li link : node)
    (parent : option string) :
  find_link li = Some link ->
  all_chars not_paren (get_text li) = true ->
  exists rest,
    parse_li (S fuel) li parent []
    = mkFact (link_username link) 0 parent
             (existsb (String.eqb "inactive_user") (link_classes link))
      :: rest.
Proof.
  intros Hl Ht. rewrite TreeFacts.parse_li_S, Hl.
  assert (Hf : fact_of_entry li link parent
               = mkFact (link_username link) 0 parent
                   (existsb (String.eqb "inactive_user")
                            (link_classes link))).
  { unfold fact_of_entry. now rewrite karma_search_none. }
  rewrite Hf. destruct (find_child _ li) as [ul|].
  - rewrite TreeFacts.parse_each_flat. simpl. eauto.
  - simpl. eauto.
Qed.

Lemma entry_without_karma_gets_zero_witness :
  exists rest,
    parse_li 1 nameless_entry (Some "root") []
    = mkFact "dana" 0 (Some "root") true :: rest.
Proof.
  apply (entry_without_karma_gets_zero 0 nameless_entry
           (Tag "a" (attrs_of [("href", "/~dana")]) ["inactive_user"]
              [Text "Dana"])
           (Some "root")); vm_compute; reflexivity.
Defined.

End TreeMoreFacts.
